(** * torchrl: the PPO and deep-Q learners

    A shallow embedding of [torchrl/learners/ppo_learner.py],
    [torchrl/learners/deep_q_learner.py] and of the update loop of
    [experiments/ppo.py], with the properties of their specification.

    Conventions.
    - A Python exception is a value of [pyerr]; a call that can raise
      returns [result A]. The state left behind by a call that raises is
      not represented.
    - numpy arrays and torch tensors of shape (T,) or (T,1) are lists of
      numbers, indexed from 0; [l !! i] is [l[i]] and [<[i:=x]> l] is
      [l[i] = x] for an index in range.
    - Floating-point numbers are real numbers. [compute_returns] only adds,
      subtracts and multiplies: it is written over any carrier with these
      operations and run on exact rationals.
    - The network, the autodiff engine, the optimizer and the replay memory
      are collaborators whose code is not part of the learners: they are
      Section variables, and nothing is assumed about them. *)

From Stdlib Require Import Reals Lra Lia QArith Qreduction.
From stdpp Require Import base option list gmap.

(** ** Python results *)

Inductive pyerr : Set :=
| IndexError
| TypeError
| RuntimeError
| ValueError
| ZeroDivisionError.

Inductive result (A : Type) : Type :=
| Ok (a : A)
| Raise (e : pyerr).
Arguments Ok {A} a.
Arguments Raise {A} e.

Definition bind {A B} (m : result A) (k : A -> result B) : result B :=
  match m with
  | Ok a => k a
  | Raise e => Raise e
  end.

Notation "'let*' x ':=' m 'in' k" := (bind m (fun x => k))
  (at level 10, x pattern, m at level 100, k at level 200).

(** [l[i]] for [0 <= i]: IndexError out of range. *)
Definition index {A} (l : list A) (i : nat) : result A :=
  match l !! i with
  | Some x => Ok x
  | None => Raise IndexError
  end.

(** [l[-1]]. *)
Definition index_last {A} (l : list A) : result A :=
  match last l with
  | Some x => Ok x
  | None => Raise IndexError
  end.

(** [for i in steps: st = body(st, i)], stopping at the first exception. *)
Fixpoint for_each {S} (body : S -> nat -> result S) (steps : list nat) (st : S) : result S :=
  match steps with
  | [] => Ok st
  | i :: rest => let* st' := body st i in for_each body rest st'
  end.

(** A function that can raise, applied to every row in order. *)
Fixpoint map_rows {A B} (f : A -> result B) (l : list A) : result (list B) :=
  match l with
  | [] => Ok []
  | x :: l' => let* y := f x in let* ys := map_rows f l' in Ok (y :: ys)
  end.

(** [torch.zeros_like], and the effect of [zero_()] on a tensor. *)
Definition zeros_like (t : list R) : list R := map (fun _ => 0%R) t.

(** ** [BasePPOLearner.compute_returns] *)

Module GAE.
Section Returns.
(** The arithmetic of the arrays: numpy floats in the program; the
    structural properties below hold for any carrier. *)
Context {num : Type}.
Variable zero : num.
Variables add sub mul : num -> num -> num.

Context {Obs Act : Type}.
(** [self.ac_net(x)[0]] for one row: the value head at the current
    parameters ([compute_returns] runs under [torch.no_grad()] and
    updates nothing). *)
Variable critic : Obs -> num.
Variables gamma lmbda : num.

(** One iteration of the loop over [step]; the state is [(gae, returns)]. *)
Definition gae_body (reward values : list num) (st : num * list num) (step : nat)
  : result (num * list num) :=
  let* r := index reward step in
  let* v1 := index values (step + 1) in
  let* v0 := index values step in
  let delta := sub (add r (mul gamma v1)) v0 in
  let gae := add delta (mul (mul gamma lmbda) (fst st)) in
  Ok (gae, <[step := add gae v0]> (snd st)).

(** Lines 56-64: the loop, then [returns[::-1]]. *)
Definition gae_returns (reward values : list num) : result (list num) :=
  let returns := replicate (length reward) zero in
  let* st := for_each (gae_body reward values) (reverse (seq 0 (length reward))) (zero, returns) in
  Ok (reverse (snd st)).

(** Lines 45-54: the value appended after the critic's values. *)
Definition bootstrap (next_obs : list Obs) (done : list bool) : result num :=
  let* d := index_last done in
  if negb d then
    let* o := index_last next_obs in Ok (critic o)
  else Ok zero.

(** Lines 36-66. [action] is not used. *)
Definition compute_returns (obs : list Obs) (action : list Act) (reward : list num)
    (next_obs : list Obs) (done : list bool) : result (list num) :=
  let values := critic <$> obs in
  let* next_value := bootstrap next_obs done in
  let values := values ++ [next_value] in
  gae_returns reward values.

(** The recursion of the specification, written on the data: given the
    rewards [r[t..]] and the values [V[t..]], the pair of [gae] at [t] and
    the targets [G[t..]]. *)
Fixpoint targets (rs vs : list num) : num * list num :=
  match rs, vs with
  | r :: rs', v0 :: vs' =>
      match vs' with
      | v1 :: _ =>
          let '(g, out) := targets rs' vs' in
          let delta := sub (add r (mul gamma v1)) v0 in
          let gae := add delta (mul (mul gamma lmbda) g) in
          (gae, add gae v0 :: out)
      | [] => (zero, [])
      end
  | _, _ => (zero, [])
  end.

(** *** The loop computes the recursion *)

Lemma for_each_app {S} (body : S -> nat -> result S) (l1 l2 : list nat) (st : S) :
  for_each body (l1 ++ l2) st
  = let* st' := for_each body l1 st in for_each body l2 st'.
Proof.
  revert st. induction l1 as [|i l1 IH]; intros st; simpl; [reflexivity|].
  destruct (body st i) as [st'|e]; simpl; [apply IH|reflexivity].
Qed.

Lemma index_Some {A} (l : list A) (i : nat) (x : A) :
  l !! i = Some x -> index l i = Ok x.
Proof. unfold index. intros ->. reflexivity. Qed.

Lemma targets_cons (rs : list num) (r v0 v1 : num) (vs' : list num) :
  targets (r :: rs) (v0 :: v1 :: vs')
  = (add (sub (add r (mul gamma v1)) v0) (mul (mul gamma lmbda) (fst (targets rs (v1 :: vs')))),
     add (add (sub (add r (mul gamma v1)) v0) (mul (mul gamma lmbda) (fst (targets rs (v1 :: vs'))))) v0
       :: snd (targets rs (v1 :: vs'))).
Proof. simpl. destruct (targets rs (v1 :: vs')) as [g out]. reflexivity. Qed.

(** After the iterations for [step = T-1, ..., T-n] the state holds [gae]
    at [T-n] and [returns] is filled from [T-n] on. *)
Lemma gae_loop_invariant (reward values : list num) (n : nat) :
  length reward < length values ->
  n <= length reward ->
  for_each (gae_body reward values)
           (reverse (seq (length reward - n) n))
           (zero, replicate (length reward) zero)
  = Ok (fst (targets (drop (length reward - n) reward) (drop (length reward - n) values)),
        replicate (length reward - n) zero
          ++ snd (targets (drop (length reward - n) reward) (drop (length reward - n) values))).
Proof.
  intros Hlen. induction n as [|n IH]; intros Hn.
  - simpl. rewrite Nat.sub_0_r, drop_all. simpl. rewrite app_nil_r. reflexivity.
  - assert (Hk : length reward - n = S (length reward - S n)) by lia.
    set (k := length reward - S n) in *.
    simpl seq. rewrite reverse_cons, for_each_app, <- Hk, IH by lia.
    simpl. unfold gae_body at 1. simpl fst. simpl snd.
    destruct (lookup_lt_is_Some_2 reward k) as [r Hr]; [lia|].
    destruct (lookup_lt_is_Some_2 values k) as [v0 Hv0]; [lia|].
    destruct (lookup_lt_is_Some_2 values (S k)) as [v1 Hv1]; [lia|].
    rewrite (index_Some _ _ _ Hr), Nat.add_1_r, (index_Some _ _ _ Hv1),
      (index_Some _ _ _ Hv0). simpl.
    rewrite (drop_S _ _ _ Hr), (drop_S _ _ _ Hv0), Hk, (drop_S _ _ _ Hv1).
    rewrite targets_cons. simpl fst. simpl snd.
    rewrite replicate_S_end, <- app_assoc. simpl.
    rewrite <- (Nat.add_0_r k) at 3.
    rewrite <- (length_replicate k zero) at 3.
    rewrite insert_app_r. reflexivity.
Qed.

(** Lines 56-64 return the targets of the recursion in reverse order. *)
Lemma gae_returns_targets (reward values : list num) :
  length reward < length values ->
  gae_returns reward values = Ok (reverse (snd (targets reward values))).
Proof.
  intros Hlen. unfold gae_returns.
  pose proof (gae_loop_invariant reward values (length reward) Hlen (le_n _)) as H.
  rewrite Nat.sub_diag in H. simpl in H. rewrite H. reflexivity.
Qed.

(** A well-shaped segment ([len(obs) = len(reward)]) never raises in the
    loop, and the array returned is the reversed vector of targets. *)
Lemma compute_returns_reversed_targets (obs : list Obs) (action : list Act)
    (reward : list num) (next_obs : list Obs) (done : list bool) (b : num) :
  length obs = length reward ->
  bootstrap next_obs done = Ok b ->
  compute_returns obs action reward next_obs done
  = Ok (reverse (snd (targets reward ((critic <$> obs) ++ [b])))).
Proof.
  intros Hlen Hb. unfold compute_returns. rewrite Hb. simpl.
  apply gae_returns_targets. rewrite length_app, length_fmap. simpl. lia.
Qed.




(** C9. [compute_returns] reads [done] and [next_obs] only at their last
    element (and [action] not at all): two calls on the same [obs] and
    [reward] whose [done] arrays end with the same flag and whose [next_obs]
    arrays end with the same observation return the same result, whatever the
    flags and observations before the last are. An episode boundary inside the
    segment therefore leaves the recursion unchanged. *)
Theorem compute_returns_reads_last_only
    (obs : list Obs) (action action' : list Act) (reward : list num)
    (next_obs next_obs' : list Obs) (done done' : list bool) :
  last done = last done' ->
  last next_obs = last next_obs' ->
  compute_returns obs action reward next_obs done
  = compute_returns obs action' reward next_obs' done'.
Proof.
  intros Hd Ho. unfold compute_returns, bootstrap, index_last.
  rewrite Hd, Ho. reflexivity.
Qed.

(** *** Further properties of [compute_returns] *)

Lemma targets_length (rs vs : list num) :
  length rs < length vs -> length (snd (targets rs vs)) = length rs.
Proof.
  revert vs. induction rs as [|r rs IH]; intros [|v0 [|v1 vs]] Hlen;
    simpl in Hlen; try lia; try reflexivity.
  rewrite targets_cons. simpl. rewrite IH by (simpl; lia). reflexivity.
Qed.

Lemma reverse_seq_S (n : nat) : reverse (seq 0 (S n)) = n :: reverse (seq 0 n).
Proof. rewrite seq_S, reverse_app. reflexivity. Qed.

(** The loop raises at its first iteration when [values] has no entry at
    [len(reward)]. *)
Lemma gae_returns_short_values (reward values : list num) :
  length values <= length reward -> reward <> [] ->
  gae_returns reward values = Raise IndexError.
Proof.
  intros Hlen Hne. unfold gae_returns.
  destruct (length reward) as [|n] eqn:Hn.
  { destruct reward; [contradiction|discriminate]. }
  rewrite reverse_seq_S. simpl. unfold gae_body at 1.
  destruct (lookup_lt_is_Some_2 reward n) as [r Hr]; [lia|].
  rewrite (index_Some _ _ _ Hr). simpl.
  unfold index. rewrite (lookup_ge_None_2 values (n + 1)) by lia. reflexivity.
Qed.

(** X1. With at least as many observations as rewards, and a [done] array
    (and, for a running segment, a [next_obs] array) that is not empty,
    [compute_returns] returns: one target per reward, namely the targets of
    the recursion on the critic's values followed by the bootstrap value, in
    reverse order. *)
Theorem compute_returns_returns (obs : list Obs) (action : list Act)
    (reward : list num) (next_obs : list Obs) (done : list bool) (b : num) :
  length reward <= length obs ->
  bootstrap next_obs done = Ok b ->
  exists out : list num,
    compute_returns obs action reward next_obs done = Ok out
    /\ out = reverse (snd (targets reward ((critic <$> obs) ++ [b])))
    /\ length out = length reward.
Proof.
  intros Hlen Hb.
  assert (Hv : length reward < length ((critic <$> obs) ++ [b]))
    by (rewrite length_app, length_fmap; simpl; lia).
  eexists. split; [|split; [reflexivity|]].
  - unfold compute_returns. rewrite Hb. simpl. apply gae_returns_targets, Hv.
  - rewrite length_reverse. apply targets_length, Hv.
Qed.

(** X2. [compute_returns] raises IndexError when [done] is empty, when the
    last [done] flag is false and [next_obs] is empty, and when there are
    fewer observations than rewards. *)
Theorem compute_returns_raises (obs : list Obs) (action : list Act)
    (reward : list num) (next_obs : list Obs) (done : list bool) :
  done = [] \/ (last done = Some false /\ next_obs = [])
  \/ length obs < length reward ->
  compute_returns obs action reward next_obs done = Raise IndexError.
Proof.
  intros H. unfold compute_returns.
  destruct (bootstrap next_obs done) as [b|e] eqn:Hb.
  - simpl. destruct H as [->|[[Hd ->]|Hlen]].
    + discriminate Hb.
    + unfold bootstrap, index_last in Hb. rewrite Hd in Hb. discriminate Hb.
    + apply gae_returns_short_values.
      * rewrite length_app, length_fmap. simpl. lia.
      * intros ->. simpl in Hlen. lia.
  - simpl. unfold bootstrap, index_last in Hb.
    destruct (last done) as [[|]|]; simpl in Hb; try discriminate Hb;
      try (injection Hb as <-; reflexivity).
    destruct (last next_obs); simpl in Hb; [discriminate Hb|].
    injection Hb as <-. reflexivity.
Qed.

(** Line 27 of [train]: the returns of the merged batch. *)
Record history := {
  h_obs : list Obs;
  h_action : list Act;
  h_reward : list num;
  h_next_obs : list Obs;
  h_done : list bool
}.






End Returns.
End GAE.

(** *** Instances of the arithmetic *)

Definition map_result {A B} (f : A -> B) (m : result A) : result B :=
  match m with
  | Ok a => Ok (f a)
  | Raise e => Raise e
  end.

(** Exact rationals: the instance that runs. *)
Definition compute_returns_Q {Obs Act : Type} (critic : Obs -> Q) (gamma lmbda : Q) :=
  @GAE.compute_returns Q 0%Q Qplus Qminus Qmult Obs Act critic gamma lmbda.

Definition targets_Q (gamma lmbda : Q) :=
  @GAE.targets Q 0%Q Qplus Qminus Qmult gamma lmbda.

(** Real numbers: the instance of the statements about (in)equality. *)
Definition compute_returns_R {Obs Act : Type} (critic : Obs -> R) (gamma lmbda : R) :=
  @GAE.compute_returns R 0%R Rplus Rminus Rmult Obs Act critic gamma lmbda.


(** C1. On the Monte-Carlo case of the specification ([gamma = 0.99],
    [lambda = 1], rewards [1,1,1], critic values [0,0,0], last step terminal)
    the recursion of the specification gives [G = [2.9701, 1.99, 1]], and
    [compute_returns] returns these targets in the opposite order,
    [[1, 1.99, 2.9701]]: the loop fills [returns[step]] in segment order and
    [returns[::-1]] then reverses the array. *)
Theorem compute_returns_monte_carlo_case :
  map Qred (snd (targets_Q (99 # 100) 1 [1; 1; 1] [0; 0; 0; 0]))%Q
  = [29701 # 10000; 199 # 100; 1]%Q
  /\ map_result (map Qred)
       (compute_returns_Q (fun _ : unit => 0%Q) (99 # 100)%Q 1%Q
          [(); (); ()] [(); (); ()] [1; 1; 1]%Q [(); (); ()] [false; false; true])
     = Ok [1; 199 # 100; 29701 # 10000]%Q.
Proof. split; vm_compute; reflexivity. Qed.

Lemma compute_returns_reads_last_only_witness :
  compute_returns_Q (fun o : nat => inject_Z (Z.of_nat o)) (99 # 100)%Q (1 # 2)%Q
    [1; 2] [(); ()] [1; 1]%Q [5; 7] [true; false]
  = compute_returns_Q (fun o : nat => inject_Z (Z.of_nat o)) (99 # 100)%Q (1 # 2)%Q
    [1; 2] [(); ()] [1; 1]%Q [6; 7] [false; false].
Proof.
  apply (GAE.compute_returns_reads_last_only 0%Q Qplus Qminus Qmult);
    reflexivity.
Defined.

Section TerminalBootstrap.
Local Open Scope R_scope.
Context {Obs Act : Type}.
Variable critic : Obs -> R.
Variables gamma lmbda : R.



End TerminalBootstrap.



(** *** Special values of [gamma] and [lmbda] *)

Section SpecialCases.
Local Open Scope R_scope.
Context {Obs Act : Type}.
Variable critic : Obs -> R.

(** The discounted sums of the rewards from each step on, closed by [b]:
    [G[t] = r[t] + gamma * G[t+1]] and [G[T] = b]. *)
Fixpoint returns_to_go (gamma : R) (rs : list R) (b : R) : R * list R :=
  match rs with
  | [] => (b, [])
  | r :: rs' =>
      let '(g, out) := returns_to_go gamma rs' b in
      (r + gamma * g, (r + gamma * g) :: out)
  end.

Lemma returns_to_go_cons (gamma : R) (r : R) (rs : list R) (b : R) :
  returns_to_go gamma (r :: rs) b
  = (r + gamma * fst (returns_to_go gamma rs b),
     (r + gamma * fst (returns_to_go gamma rs b)) :: snd (returns_to_go gamma rs b)).
Proof. simpl. destruct (returns_to_go gamma rs b). reflexivity. Qed.

Lemma targets_lmbda_one (gamma : R) (rs : list R) (v : R) (vs : list R) (b : R) :
  length vs = length rs ->
  last (v :: vs) = Some b ->
  fst (GAE.targets 0 Rplus Rminus Rmult gamma 1 rs (v :: vs)) + v
  = fst (returns_to_go gamma rs b)
  /\ snd (GAE.targets 0 Rplus Rminus Rmult gamma 1 rs (v :: vs))
     = snd (returns_to_go gamma rs b).
Proof.
  revert v vs. induction rs as [|r rs IH]; intros v [|v1 vs] Hlen Hlast;
    try discriminate Hlen.
  - simpl in *. injection Hlast as <-. split; [lra|reflexivity].
  - injection Hlen as Hlen. rewrite last_cons_cons in Hlast.
    destruct (IH v1 vs Hlen Hlast) as [IHg IHout].
    rewrite GAE.targets_cons, returns_to_go_cons. simpl fst. simpl snd.
    rewrite <- IHg, IHout. split; [ring|f_equal; ring].
Qed.

Lemma targets_lmbda_zero (gamma : R) (rs : list R) (v : R) (vs : list R) :
  length vs = length rs ->
  snd (GAE.targets 0 Rplus Rminus Rmult gamma 0 rs (v :: vs))
  = zip_with (fun r v1 => r + gamma * v1) rs vs.
Proof.
  revert v vs. induction rs as [|r rs IH]; intros v [|v1 vs] Hlen;
    try discriminate Hlen; [reflexivity|].
  injection Hlen as Hlen.
  rewrite GAE.targets_cons. simpl snd. rewrite (IH v1 vs Hlen). simpl.
  f_equal. ring.
Qed.

Lemma targets_gamma_zero (lmbda : R) (rs vs : list R) :
  (length rs < length vs)%nat ->
  snd (GAE.targets 0 Rplus Rminus Rmult 0 lmbda rs vs) = rs.
Proof.
  revert vs. induction rs as [|r rs IH]; intros [|v [|v1 vs]] Hlen;
    simpl in Hlen; try lia; try reflexivity.
  rewrite GAE.targets_cons. simpl snd. rewrite IH by (simpl; lia).
  f_equal. ring.
Qed.

(** X4. With [lmbda = 1] the targets are the discounted sums of the rewards,
    closed by the bootstrap value: the critic's values at the visited
    observations cancel, and the result (in reverse order) is a function of
    the rewards, [gamma] and the bootstrap value only. *)
Theorem compute_returns_lmbda_one (gamma : R) (obs : list Obs) (action : list Act)
    (reward : list R) (next_obs : list Obs) (done : list bool) (b : R) :
  length obs = length reward ->
  GAE.bootstrap 0 critic next_obs done = Ok b ->
  compute_returns_R critic gamma 1 obs action reward next_obs done
  = Ok (reverse (snd (returns_to_go gamma reward b))).
Proof.
  intros Hlen Hb. unfold compute_returns_R.
  rewrite (GAE.compute_returns_reversed_targets _ _ _ _ _ _ _ _ _ _ _ _ b Hlen Hb).
  do 2 f_equal.
  destruct obs as [|o obs]; destruct reward as [|r reward]; try discriminate Hlen;
    [reflexivity|].
  rewrite fmap_cons. cbn [app].
  apply targets_lmbda_one.
  - rewrite length_app, length_fmap. simpl in *. lia.
  - rewrite app_comm_cons. apply last_snoc.
Qed.

(** X5. With [lmbda = 0] every target is the one-step target
    [r[t] + gamma * V[t+1]]. *)
Theorem compute_returns_lmbda_zero (gamma : R) (obs : list Obs) (action : list Act)
    (reward : list R) (next_obs : list Obs) (done : list bool) (b : R) :
  length obs = length reward ->
  GAE.bootstrap 0 critic next_obs done = Ok b ->
  compute_returns_R critic gamma 0 obs action reward next_obs done
  = Ok (reverse (zip_with (fun r v1 => r + gamma * v1) reward
                   ((critic <$> tail obs) ++ [b]))).
Proof.
  intros Hlen Hb. unfold compute_returns_R.
  rewrite (GAE.compute_returns_reversed_targets _ _ _ _ _ _ _ _ _ _ _ _ b Hlen Hb).
  do 2 f_equal.
  destruct obs as [|o obs]; destruct reward as [|r reward]; try discriminate Hlen;
    [reflexivity|].
  rewrite fmap_cons. cbn [app tail].
  apply targets_lmbda_zero.
  rewrite length_app, length_fmap. simpl in *. lia.
Qed.

(** X6. With [gamma = 0] the targets are the rewards themselves, whatever
    the critic and [lmbda]: the result is the reward array reversed. *)
Theorem compute_returns_gamma_zero (lmbda : R) (obs : list Obs) (action : list Act)
    (reward : list R) (next_obs : list Obs) (done : list bool) (b : R) :
  (length reward <= length obs)%nat ->
  GAE.bootstrap 0 critic next_obs done = Ok b ->
  compute_returns_R critic 0 lmbda obs action reward next_obs done
  = Ok (reverse reward).
Proof.
  intros Hlen Hb. unfold compute_returns_R, GAE.compute_returns.
  rewrite Hb. cbn [bind].
  rewrite GAE.gae_returns_targets
    by (rewrite length_app, length_fmap; simpl; lia).
  rewrite targets_gamma_zero by (rewrite length_app, length_fmap; simpl; lia).
  reflexivity.
Qed.

End SpecialCases.

Lemma compute_returns_returns_witness :
  exists out : list Q,
    compute_returns_Q (fun _ : unit => 0%Q) (99 # 100)%Q 1%Q
      [(); (); ()] [(); ()] [1; 1]%Q [()] [false] = Ok out
    /\ out = reverse (snd (targets_Q (99 # 100) 1 [1; 1]
                             (((fun _ : unit => 0) <$> [(); (); ()]) ++ [0])))%Q
    /\ length out = 2.
Proof.
  apply (GAE.compute_returns_returns 0%Q Qplus Qminus Qmult (fun _ : unit => 0%Q)
           (99 # 100)%Q 1%Q [(); (); ()] [(); ()] [1; 1]%Q [()] [false] 0%Q).
  - simpl. lia.
  - reflexivity.
Defined.

Lemma compute_returns_raises_witness :
  compute_returns_Q (fun _ : unit => 0%Q) (99 # 100)%Q 1%Q
    [()] [()] [1; 1]%Q [()] [true] = Raise IndexError.
Proof.
  apply (GAE.compute_returns_raises 0%Q Qplus Qminus Qmult).
  right. right. simpl. lia.
Defined.


Lemma compute_returns_lmbda_one_witness :
  compute_returns_R (fun _ : unit => 5%R) (1 / 2)%R 1%R
    [(); ()] [(); ()] [1%R; 2%R] [(); ()] [false; true]
  = Ok (reverse (snd (returns_to_go (1 / 2)%R [1%R; 2%R] 0%R))).
Proof.
  apply (compute_returns_lmbda_one (fun _ : unit => 5%R) (1 / 2)%R
           [(); ()] [(); ()] [1%R; 2%R] [(); ()] [false; true] 0%R);
    reflexivity.
Defined.

Lemma compute_returns_lmbda_zero_witness :
  compute_returns_R (fun _ : unit => 5%R) (1 / 2)%R 0%R
    [(); ()] [(); ()] [1%R; 2%R] [(); ()] [false; false]
  = Ok (reverse (zip_with (fun r v1 => r + 1 / 2 * v1)%R [1%R; 2%R]
                   (((fun _ : unit => 5%R) <$> tail [(); ()]) ++ [5%R]))).
Proof.
  apply (compute_returns_lmbda_zero (fun _ : unit => 5%R) (1 / 2)%R
           [(); ()] [(); ()] [1%R; 2%R] [(); ()] [false; false] 5%R);
    reflexivity.
Defined.

Lemma compute_returns_gamma_zero_witness :
  compute_returns_R (fun _ : unit => 5%R) 0%R (1 / 2)%R
    [(); ()] [(); ()] [1%R; 2%R] [(); ()] [false; false]
  = Ok (reverse [1%R; 2%R]).
Proof.
  apply (compute_returns_gamma_zero (fun _ : unit => 5%R) (1 / 2)%R
           [(); ()] [(); ()] [1%R; 2%R] [(); ()] [false; false] 5%R);
    [simpl; lia|reflexivity].
Defined.

(** ** [BasePPOLearner.compute_old_data] and [BasePPOLearner.learn]

    Torch tensors are objects with identity: a tensor lives at a location of
    the store, and a Python variable holds the location. The learner owns
    three of them: the parameters of [ac_net], their gradient buffers and the
    state of the Adam optimizer. Moving a tensor to the GPU leaves its
    contents unchanged and is not represented. *)

Module PPO.

Definition tensor := list R.
Definition loc := positive.

Record learner := {
  ac_net : loc;
  ac_net_grad : loc;
  ac_net_optim : loc;
  gamma : R;
  lmbda : R;
  alpha : R;
  beta : R;
  clip_ratio : R
}.

(** *** Tensor operations *)

(** An elementwise binary operation on two columns, with torch's
    broadcasting along the batch axis: equal sizes, or one of them 1. *)
Definition broadcast2 {A B C} (f : A -> B -> C) (xs : list A) (ys : list B)
  : result (list C) :=
  if decide (length xs = length ys) then Ok (zip_with f xs ys)
  else match xs, ys with
       | [x], _ => Ok (map (f x) ys)
       | _, [y] => Ok (map (fun x => f x y) xs)
       | _, _ => Raise RuntimeError
       end.

(** [torch.clamp(x, lo, hi)]. *)
Definition clamp (lo hi x : R) : R := Rmin (Rmax x lo) hi.

(** [torch.cat([xs, ys], dim=1)] of two columns: one row of two entries per
    batch index. *)
Definition cat_dim1 (xs ys : list R) : result (list (list R)) :=
  if decide (length xs = length ys) then Ok (zip_with (fun x y => [x; y]) xs ys)
  else Raise RuntimeError.

(** [.min(dim=1)[0]] on one row. *)
Definition row_min (row : list R) : result R :=
  match row with
  | [] => Raise RuntimeError
  | x :: rest => Ok (foldl Rmin x rest)
  end.

Definition tensor_sum (xs : list R) : R := foldr Rplus 0%R xs.

(** [.mean()]; torch gives nan on an empty tensor, which the reals do not
    have: the quotient by [0] stands for it. *)
Definition mean (xs : list R) : R := (tensor_sum xs / INR (length xs))%R.

Section Learner.
Local Open Scope R_scope.
Context {Obs Act : Type}.

(** [ActorCriticNet] at parameters [theta]: the value head, and the
    log-probability and the entropy of the action distribution, per row. *)
Variable value_head : tensor -> Obs -> R.
Variable log_prob : tensor -> Obs -> Act -> R.
Variable entropy : tensor -> Obs -> R.

(** [loss.backward()]: the gradient, at the current parameters, of the loss
    as a function of the parameters. *)
Variable gradient : (tensor -> R) -> tensor -> tensor.

(** [Adam.step]: from the optimizer state, the parameters and their
    gradients to the new optimizer state and parameters. *)
Variable adam : tensor -> tensor -> tensor -> tensor * tensor.

(** Lines 68-77. The two results are new tensors. *)
Definition compute_old_data (l : learner) (obs : list Obs) (action : list Act)
    (h : gmap loc tensor) : result (loc * loc * gmap loc tensor) :=
  let theta := h !!! ac_net l in
  let values := value_head theta <$> obs in
  let* log_probs := broadcast2 (log_prob theta) obs action in
  let v := fresh (dom h) in
  let h1 := <[v := values]> h in
  let p := fresh (dom h1) in
  Ok (v, p, <[p := log_probs]> h1).

(** Lines 94-95: [ratio]. *)
Definition ratio (theta : tensor) (obs : list Obs) (action : list Act)
    (old_log_probs : tensor) : result tensor :=
  let* new_log_probs := broadcast2 (log_prob theta) obs action in
  let* d := broadcast2 Rminus new_log_probs old_log_probs in
  Ok (exp <$> d).

(** Lines 92-104: the three loss components at parameters [theta]. *)
Definition losses (l : learner) (theta : tensor) (obs : list Obs) (action : list Act)
    (returns old_values old_log_probs : tensor) : result (R * R * R) :=
  let values := value_head theta <$> obs in
  let* ratio := ratio theta obs action old_log_probs in
  let* old_advantages := broadcast2 Rminus returns old_values in
  let* surr1 := broadcast2 Rmult ratio old_advantages in
  let* surr2 := broadcast2 Rmult
                  (clamp (1 - clip_ratio l) (1 + clip_ratio l) <$> ratio)
                  old_advantages in
  let* rows := cat_dim1 surr1 surr2 in
  let* mins := map_rows row_min rows in
  let actor_loss := - mean mins in
  let* errs := broadcast2 Rminus returns values in
  let critic_loss := mean ((fun x => x ^ 2) <$> errs) in
  let entropy_loss := mean (entropy theta <$> obs) in
  Ok (actor_loss, critic_loss, entropy_loss).

(** Line 106, as a function of the parameters. Whether an operation raises
    depends on the shapes only, so the last case is not met once the loss
    has been computed at the current parameters. *)
Definition loss (l : learner) (obs : list Obs) (action : list Act)
    (returns old_values old_log_probs : tensor) (theta : tensor) : R :=
  match losses l theta obs action returns old_values old_log_probs with
  | Ok (actor_loss, critic_loss, entropy_loss) =>
      actor_loss + alpha l * critic_loss - beta l * entropy_loss
  | Raise _ => 0
  end.

(** The calls on the optimizer and on the autodiff engine, as store updates. *)
Definition zero_grad (l : learner) (h : gmap loc tensor) : gmap loc tensor :=
  <[ac_net_grad l := zeros_like (h !!! ac_net l)]> h.

Definition backward (l : learner) (f : tensor -> R) (h : gmap loc tensor)
  : gmap loc tensor :=
  <[ac_net_grad l := zip_with Rplus (h !!! ac_net_grad l) (gradient f (h !!! ac_net l))]> h.

Definition optim_step (l : learner) (h : gmap loc tensor) : gmap loc tensor :=
  let '(state, theta) := adam (h !!! ac_net_optim l) (h !!! ac_net l) (h !!! ac_net_grad l) in
  <[ac_net l := theta]> (<[ac_net_optim l := state]> h).

(** Lines 79-114. [old_values] and [old_log_probs] are references to the
    tensors of the snapshot. *)
Definition learn (l : learner) (obs : list Obs) (action : list Act) (reward : list R)
    (next_obs : list Obs) (done : list bool) (returns : list R)
    (old_values old_log_probs : loc) (h : gmap loc tensor)
  : result (R * R * R * gmap loc tensor) :=
  let theta := h !!! ac_net l in
  let* out := losses l theta obs action returns (h !!! old_values) (h !!! old_log_probs) in
  let f := loss l obs action returns (h !!! old_values) (h !!! old_log_probs) in
  let h := zero_grad l h in
  let h := backward l f h in
  let h := optim_step l h in
  Ok (out, h).

(** *** The update loop of [experiments/ppo.py]

    The trainer calls the learner with argument lists built at run time
    (a starred [batch_history]), so the calls are embedded with Python's
    binding of positional arguments. *)

Inductive pyval :=
| VObs (x : list Obs)
| VAct (x : list Act)
| VArr (x : list R)
| VFlags (x : list bool)
| VTensor (p : loc)
| VIdx (x : list nat).

(** [agent.compute_old_data] called on a starred argument list: two
    parameters after [self]. *)
Definition call_compute_old_data (l : learner) (args : list pyval)
    (h : gmap loc tensor) : result (loc * loc * gmap loc tensor) :=
  match args with
  | [VObs obs; VAct action] => compute_old_data l obs action h
  | _ => Raise TypeError
  end.

(** [agent.learn] called on a starred argument list: eight parameters after
    [self]; any other number of positional arguments is a TypeError, raised
    before the body runs. The values are typed here, and an argument of
    another kind than its parameter is reported in the same way. *)
Definition call_learn (l : learner) (args : list pyval) (h : gmap loc tensor)
  : result (R * R * R * gmap loc tensor) :=
  match args with
  | [VObs obs; VAct action; VArr reward; VObs next_obs; VFlags done;
     VArr returns; VTensor old_values; VTensor old_log_probs] =>
      learn l obs action reward next_obs done returns old_values old_log_probs h
  | _ => Raise TypeError
  end.

(** Lines 31-33 of [train]: one iteration per drawn [minibatch_idx]; the
    draws of [np.random.choice] are given. The result carries the losses of
    the last iteration. *)
Fixpoint ppo_epochs (l : learner) (batch_history : list pyval) (returns : list R)
    (old_values old_log_probs : loc) (draws : list (list nat))
    (last_losses : option (R * R * R)) (h : gmap loc tensor)
  : result (option (R * R * R) * gmap loc tensor) :=
  match draws with
  | [] => Ok (last_losses, h)
  | minibatch_idx :: rest =>
      let* (out, h') :=
        call_learn l (batch_history
                        ++ [VArr returns; VTensor old_values; VTensor old_log_probs;
                            VIdx minibatch_idx]) h in
      ppo_epochs l batch_history returns old_values old_log_probs rest (Some out) h'
  end.

(** Lines 30-33 of [train]. *)
Definition train_update (l : learner) (batch_history : list pyval) (returns : list R)
    (draws : list (list nat)) (h : gmap loc tensor)
  : result (option (R * R * R) * gmap loc tensor) :=
  let* (old_values, old_log_probs, h1) :=
    call_compute_old_data l (take 2 batch_history) h in
  ppo_epochs l batch_history returns old_values old_log_probs draws None h1.

(** *** Calls of [learn] that follow one snapshot *)

(** The learner's own tensors exist in the store. *)
Definition owned (l : learner) (h : gmap loc tensor) : Prop :=
  is_Some (h !! ac_net l) /\ is_Some (h !! ac_net_grad l) /\ is_Some (h !! ac_net_optim l).

(** The three tensors of the learner are distinct objects. *)
Definition separate (l : learner) : Prop :=
  ac_net l <> ac_net_grad l /\ ac_net l <> ac_net_optim l
  /\ ac_net_grad l <> ac_net_optim l.

(** [learn_calls l ov olp h h']: some number of calls of [learn], on any
    batches, all given the references [ov] and [olp], lead from store [h] to
    store [h']. A call that raises does so before the store is touched. *)
Inductive learn_calls (l : learner) (ov olp : loc)
  : gmap loc tensor -> gmap loc tensor -> Prop :=
| calls_none (h : gmap loc tensor) : learn_calls l ov olp h h
| calls_more (h h' h'' : gmap loc tensor) obs action reward next_obs done returns out :
    learn_calls l ov olp h h' ->
    learn l obs action reward next_obs done returns ov olp h' = Ok (out, h'') ->
    learn_calls l ov olp h h''.

(** The specification's surrogate for one transition. *)
Definition clipped_surrogate (clip ratio advantage : R) : R :=
  Rmin (ratio * advantage) (clamp (1 - clip) (1 + clip) ratio * advantage).

(** The surrogate of every transition of a batch, from its columns. *)
Fixpoint surrogates (theta : tensor) (clip : R) (obs : list Obs) (action : list Act)
    (returns old_values old_log_probs : list R) : list R :=
  match obs, action, returns, old_values, old_log_probs with
  | o :: obs', a :: action', g :: returns', v :: old_values', p :: old_log_probs' =>
      clipped_surrogate clip (exp (log_prob theta o a - p)) (g - v)
        :: surrogates theta clip obs' action' returns' old_values' old_log_probs'
  | _, _, _, _, _ => []
  end.

(** *** Shapes *)

Lemma broadcast2_same_length {A B C} (f : A -> B -> C) (xs : list A) (ys : list B) :
  length xs = length ys -> broadcast2 f xs ys = Ok (zip_with f xs ys).
Proof. intros Hlen. unfold broadcast2. case_decide; [reflexivity|contradiction]. Qed.

Lemma row_min_pairs (xs ys : list R) :
  map_rows row_min (zip_with (fun x y => [x; y]) xs ys) = Ok (zip_with Rmin xs ys).
Proof.
  revert ys. induction xs as [|x xs IH]; intros [|y ys]; simpl; try reflexivity.
  rewrite IH. reflexivity.
Qed.

Lemma surrogates_zip (theta : tensor) (clip : R) (obs : list Obs) (action : list Act)
    (returns old_values old_log_probs : list R) :
  zip_with Rmin
    (zip_with Rmult
       (exp <$> zip_with Rminus (zip_with (log_prob theta) obs action) old_log_probs)
       (zip_with Rminus returns old_values))
    (zip_with Rmult
       (clamp (1 - clip) (1 + clip)
          <$> (exp <$> zip_with Rminus (zip_with (log_prob theta) obs action) old_log_probs))
       (zip_with Rminus returns old_values))
  = surrogates theta clip obs action returns old_values old_log_probs.
Proof.
  revert action returns old_values old_log_probs.
  induction obs as [|o obs IH]; intros [|a action] [|g returns] [|v old_values]
    [|p old_log_probs]; simpl; try reflexivity.
  rewrite IH. reflexivity.
Qed.

(** On a batch whose columns have one row per observation no operation
    raises, and the three components are the means below. *)
Lemma losses_well_shaped (l : learner) (theta : tensor) (obs : list Obs)
    (action : list Act) (returns old_values old_log_probs : tensor) :
  length action = length obs ->
  length returns = length obs ->
  length old_values = length obs ->
  length old_log_probs = length obs ->
  losses l theta obs action returns old_values old_log_probs
  = Ok (- mean (surrogates theta (clip_ratio l) obs action returns old_values old_log_probs),
        mean ((fun x => x ^ 2) <$> zip_with Rminus returns (value_head theta <$> obs)),
        mean (entropy theta <$> obs)).
Proof.
  intros Ha Hr Hv Hp. unfold losses, ratio.
  rewrite (broadcast2_same_length (log_prob theta)) by congruence. simpl.
  rewrite (broadcast2_same_length Rminus (zip_with _ _ _))
    by (rewrite length_zip_with; lia). simpl.
  rewrite (broadcast2_same_length Rminus returns old_values) by congruence. simpl.
  rewrite !(broadcast2_same_length Rmult)
    by (rewrite ?length_fmap, !length_zip_with; lia). simpl.
  unfold cat_dim1. rewrite decide_True
    by (rewrite !length_zip_with, ?length_fmap, !length_zip_with; lia). simpl.
  rewrite row_min_pairs. simpl.
  rewrite (broadcast2_same_length Rminus returns) by (rewrite length_fmap; congruence).
  simpl. rewrite surrogates_zip. reflexivity.
Qed.

(** *** The effect of one call on the store *)

Lemma learn_inv (l : learner) obs action reward next_obs done returns
    (ov olp : loc) (h h' : gmap loc tensor) (out : R * R * R) :
  learn l obs action reward next_obs done returns ov olp h = Ok (out, h') ->
  losses l (h !!! ac_net l) obs action returns (h !!! ov) (h !!! olp) = Ok out
  /\ h' = optim_step l
            (backward l (loss l obs action returns (h !!! ov) (h !!! olp))
               (zero_grad l h)).
Proof.
  unfold learn. destruct (losses _ _ _ _ _ _ _) as [out'|e]; simpl; [|discriminate].
  intros [= -> <-]. split; reflexivity.
Qed.

Lemma zero_grad_frame (l : learner) (h : gmap loc tensor) (p : loc) :
  p <> ac_net_grad l -> zero_grad l h !! p = h !! p.
Proof. intros Hp. unfold zero_grad. rewrite lookup_insert_ne by congruence. reflexivity. Qed.

Lemma backward_frame (l : learner) (f : tensor -> R) (h : gmap loc tensor) (p : loc) :
  p <> ac_net_grad l -> backward l f h !! p = h !! p.
Proof. intros Hp. unfold backward. rewrite lookup_insert_ne by congruence. reflexivity. Qed.

Lemma optim_step_frame (l : learner) (h : gmap loc tensor) (p : loc) :
  p <> ac_net l -> p <> ac_net_optim l -> optim_step l h !! p = h !! p.
Proof.
  intros Hp Ho. unfold optim_step. destruct (adam _ _ _) as [state theta].
  rewrite !lookup_insert_ne by congruence. reflexivity.
Qed.

(** A call of [learn] writes the learner's three tensors and nothing else. *)
Lemma learn_frame (l : learner) obs action reward next_obs done returns
    (ov olp : loc) (h h' : gmap loc tensor) (out : R * R * R) (p : loc) :
  learn l obs action reward next_obs done returns ov olp h = Ok (out, h') ->
  p <> ac_net l -> p <> ac_net_grad l -> p <> ac_net_optim l ->
  h' !! p = h !! p.
Proof.
  intros Hl Hn Hg Ho. apply learn_inv in Hl as [_ ->].
  rewrite optim_step_frame, backward_frame, zero_grad_frame by assumption.
  reflexivity.
Qed.

(** The gradient buffers when [learn] returns: zeroed, then one backward
    pass; the optimizer step does not touch them. *)
Lemma learn_grad_after (l : learner) obs action reward next_obs done returns
    (ov olp : loc) (h h' : gmap loc tensor) (out : R * R * R) :
  separate l ->
  learn l obs action reward next_obs done returns ov olp h = Ok (out, h') ->
  h' !! ac_net_grad l
  = Some (zip_with Rplus (zeros_like (h !!! ac_net l))
            (gradient (loss l obs action returns (h !!! ov) (h !!! olp))
               (h !!! ac_net l))).
Proof.
  intros (Hng & Hno & Hgo) Hl. apply learn_inv in Hl as [_ ->].
  rewrite optim_step_frame by congruence.
  unfold backward. rewrite lookup_insert_eq.
  unfold zero_grad.
  rewrite lookup_total_insert_eq, lookup_total_insert_ne by congruence.
  reflexivity.
Qed.

(** The parameters and the optimizer state when [learn] returns: one Adam
    step from the old ones with the gradient of this call's loss. *)
Lemma learn_step_after (l : learner) obs action reward next_obs done returns
    (ov olp : loc) (h h' : gmap loc tensor) (out : R * R * R) :
  separate l ->
  learn l obs action reward next_obs done returns ov olp h = Ok (out, h') ->
  (h' !!! ac_net_optim l, h' !!! ac_net l)
  = adam (h !!! ac_net_optim l) (h !!! ac_net l) (h' !!! ac_net_grad l).
Proof.
  intros Hsep Hl.
  rewrite (lookup_total_correct _ _ _ (learn_grad_after _ _ _ _ _ _ _ _ _ _ _ _ Hsep Hl)).
  destruct Hsep as (Hng & Hno & Hgo). apply learn_inv in Hl as [_ ->].
  unfold optim_step, backward, zero_grad.
  rewrite !lookup_total_insert_eq.
  rewrite !(lookup_total_insert_ne _ (ac_net_grad l)) by congruence.
  destruct (adam _ _ _) as [state theta].
  rewrite lookup_total_insert_eq, lookup_total_insert_ne, lookup_total_insert_eq
    by congruence.
  reflexivity.
Qed.

Lemma clamp_example : clamp (1 - 0.2) (1 + 0.2) 1.5 = 1.2.
Proof.
  unfold clamp, Rmin, Rmax.
  destruct (Rle_dec 1.5 (1 - 0.2)); destruct (Rle_dec _ _); lra.
Qed.

(** C4. On every batch whose columns have one row per observation, [learn]
    returns, and the actor loss it reports is minus the mean over the rows of
    [min(ratio * advantage, clamp(ratio, 1 - clip_ratio, 1 + clip_ratio) *
    advantage)], with [ratio = exp(new_log_prob - old_log_prob)] at the
    current parameters and [advantage = return - old_value] from the snapshot
    tensors. With [clip_ratio = 0.2], a ratio of [1.5] is clamped to [1.2]. *)
Theorem learn_actor_loss_is_clipped_surrogate (l : learner) (obs : list Obs)
    (action : list Act) (reward : list R) (next_obs : list Obs) (done : list bool)
    (returns : list R) (ov olp : loc) (h : gmap loc tensor) :
  length action = length obs ->
  length returns = length obs ->
  length (h !!! ov) = length obs ->
  length (h !!! olp) = length obs ->
  (exists (critic_loss entropy_loss : R) (h' : gmap loc tensor),
     learn l obs action reward next_obs done returns ov olp h
     = Ok (- mean (surrogates (h !!! ac_net l) (clip_ratio l) obs action returns
                     (h !!! ov) (h !!! olp)),
           critic_loss, entropy_loss, h'))
  /\ clamp (1 - 0.2) (1 + 0.2) 1.5 = 1.2.
Proof.
  intros Ha Hr Hv Hp. split; [|apply clamp_example].
  unfold learn. rewrite losses_well_shaped by assumption. simpl.
  eexists _, _, _. reflexivity.
Qed.

(** C5. After [compute_old_data] has produced the snapshot, any number of
    [learn] calls given the two snapshot references leave the snapshot
    tensors with the contents computed from the parameters of that time,
    and the ratio of any further call is the one against those contents,
    whatever the parameters have become. *)
Theorem snapshot_frozen_across_learn_calls (l : learner) (obs : list Obs)
    (action : list Act) (h0 h1 h : gmap loc tensor) (ov olp : loc) :
  owned l h0 ->
  compute_old_data l obs action h0 = Ok (ov, olp, h1) ->
  learn_calls l ov olp h1 h ->
  exists old_log_probs : tensor,
    broadcast2 (log_prob (h0 !!! ac_net l)) obs action = Ok old_log_probs
    /\ h !! ov = Some (value_head (h0 !!! ac_net l) <$> obs)
    /\ h !! olp = Some old_log_probs
    /\ forall (obs' : list Obs) (action' : list Act),
         ratio (h !!! ac_net l) obs' action' (h !!! olp)
         = ratio (h !!! ac_net l) obs' action' old_log_probs.
Proof.
  intros (Hn & Hg & Ho) Hc Hcalls. unfold compute_old_data in Hc.
  destruct (broadcast2 _ obs action) as [lps|e]; simpl in Hc; [|discriminate].
  injection Hc as <- <- <-.
  set (v := fresh (dom h0)) in *.
  set (p := fresh (dom (<[v := value_head (h0 !!! ac_net l) <$> obs]> h0))) in *.
  assert (Hv : h0 !! v = None) by (apply not_elem_of_dom, is_fresh).
  assert (Hp : <[v := value_head (h0 !!! ac_net l) <$> obs]> h0 !! p = None)
    by (apply not_elem_of_dom, is_fresh).
  assert (Hpv : p <> v) by (intros E; rewrite E, lookup_insert_eq in Hp; discriminate).
  rewrite lookup_insert_ne in Hp by congruence.
  assert (Hframe : forall q, q = v \/ q = p ->
            q <> ac_net l /\ q <> ac_net_grad l /\ q <> ac_net_optim l).
  { intros q [->| ->]; repeat split; intros E; rewrite E in *;
      match goal with
      | H1 : is_Some ?x, H2 : ?x = None |- _ => rewrite H2 in H1; destruct H1; discriminate
      end. }
  exists lps. split; [reflexivity|].
  assert (Hinv : h !! v = Some (value_head (h0 !!! ac_net l) <$> obs)
                 /\ h !! p = Some lps).
  { remember (<[p := lps]> (<[v := value_head (h0 !!! ac_net l) <$> obs]> h0))
      as h1 eqn:Hh1.
    induction Hcalls as [h|h h' h'' ? ? ? ? ? ? ? _ IH Hl].
    - subst h.
      split; [rewrite lookup_insert_ne, lookup_insert_eq by congruence
             |rewrite lookup_insert_eq]; reflexivity.
    - destruct (IH Hh1) as [IHv IHp].
      destruct (Hframe v (or_introl eq_refl)) as (? & ? & ?).
      destruct (Hframe p (or_intror eq_refl)) as (? & ? & ?).
      rewrite !(learn_frame _ _ _ _ _ _ _ _ _ _ _ _ _ Hl) by assumption.
      split; assumption. }
  destruct Hinv as [Hiv Hip]. split; [exact Hiv|split; [exact Hip|]].
  intros obs' action'. rewrite (lookup_total_correct _ _ _ Hip). reflexivity.
Qed.

(** C6, with the gradients zeroed before the backward pass. On every batch
    whose columns have one row per observation, [learn] returns three numbers
    [(a, c, e)]: [c] is the mean squared error of the value head against the
    returns, [e] the mean entropy, and the loss that is differentiated is
    [a + alpha * c - beta * e]. Its effect on the
    store is: zero the gradient buffers, then one backward pass of that loss,
    then one optimizer step. The buffers are zeroed before the backward pass,
    so when [learn] returns they hold the gradient of this call's loss, and
    the step has used exactly that gradient. *)
Theorem learn_single_backward_single_step (l : learner) (obs : list Obs)
    (action : list Act) (reward : list R) (next_obs : list Obs) (done : list bool)
    (returns : list R) (ov olp : loc) (h : gmap loc tensor) :
  separate l ->
  length action = length obs ->
  length returns = length obs ->
  length (h !!! ov) = length obs ->
  length (h !!! olp) = length obs ->
  exists (a c e : R) (h' : gmap loc tensor),
    learn l obs action reward next_obs done returns ov olp h = Ok (a, c, e, h')
    /\ c = mean ((fun x => x ^ 2)
                   <$> zip_with Rminus returns (value_head (h !!! ac_net l) <$> obs))
    /\ e = mean (entropy (h !!! ac_net l) <$> obs)
    /\ loss l obs action returns (h !!! ov) (h !!! olp) (h !!! ac_net l)
       = a + alpha l * c - beta l * e
    /\ h' = optim_step l
              (backward l (loss l obs action returns (h !!! ov) (h !!! olp))
                 (zero_grad l h))
    /\ h' !! ac_net_grad l
       = Some (zip_with Rplus (zeros_like (h !!! ac_net l))
                 (gradient (loss l obs action returns (h !!! ov) (h !!! olp))
                    (h !!! ac_net l)))
    /\ (h' !!! ac_net_optim l, h' !!! ac_net l)
       = adam (h !!! ac_net_optim l) (h !!! ac_net l) (h' !!! ac_net_grad l).
Proof.
  intros Hsep Ha Hr Hv Hp.
  pose proof (losses_well_shaped l (h !!! ac_net l) obs action returns
                (h !!! ov) (h !!! olp) Ha Hr Hv Hp) as Hlosses.
  assert (Hl : learn l obs action reward next_obs done returns ov olp h
               = Ok (- mean (surrogates (h !!! ac_net l) (clip_ratio l) obs action
                               returns (h !!! ov) (h !!! olp)),
                     mean ((fun x => x ^ 2)
                             <$> zip_with Rminus returns
                                   (value_head (h !!! ac_net l) <$> obs)),
                     mean (entropy (h !!! ac_net l) <$> obs),
                     optim_step l
                       (backward l (loss l obs action returns (h !!! ov) (h !!! olp))
                          (zero_grad l h))))
    by (unfold learn; rewrite Hlosses; reflexivity).
  eexists _, _, _, _. split; [exact Hl|].
  split; [reflexivity|]. split; [reflexivity|].
  split; [unfold loss; rewrite Hlosses; reflexivity|].
  split; [reflexivity|].
  split; [exact (learn_grad_after _ _ _ _ _ _ _ _ _ _ _ _ Hsep Hl)
         |exact (learn_step_after _ _ _ _ _ _ _ _ _ _ _ _ Hsep Hl)].
Qed.

(** C2. The learner's [learn] has no parameter for the minibatch indices:
    called as the trainer calls it, with the five columns of the merged batch
    followed by [returns], the two snapshot references and [minibatch_idx],
    it raises TypeError before its body runs, for any five leading arguments;
    so does the first iteration of the trainer's epoch loop. *)
Theorem train_learn_call_raises_type_error (l : learner) (rows : list (Obs * Act))
    (reward : list R) (next_obs : list Obs) (done : list bool) (returns : list R)
    (ov olp : loc) (minibatch_idx : list nat) (draws : list (list nat))
    (h : gmap loc tensor) :
  (forall a1 a2 a3 a4 a5 : pyval,
     call_learn l ([a1; a2; a3; a4; a5]
                     ++ [VArr returns; VTensor ov; VTensor olp; VIdx minibatch_idx]) h
     = Raise TypeError)
  /\ train_update l [VObs rows.*1; VAct rows.*2; VArr reward; VObs next_obs; VFlags done]
       returns (minibatch_idx :: draws) h
     = Raise TypeError.
Proof.
  split.
  - intros a1 a2 a3 a4 a5. simpl.
    destruct a1; try reflexivity. destruct a2; try reflexivity.
    destruct a3; try reflexivity. destruct a4; try reflexivity.
    destruct a5; reflexivity.
  - unfold train_update. simpl. unfold compute_old_data.
    rewrite broadcast2_same_length by (rewrite !length_fmap; reflexivity).
    reflexivity.
Qed.

(** *** Further properties of [compute_old_data] and [learn] *)

Lemma compute_old_data_inv (l : learner) (obs : list Obs) (action : list Act)
    (h h1 : gmap loc tensor) (ov olp : loc) :
  compute_old_data l obs action h = Ok (ov, olp, h1) ->
  exists lps : tensor,
    broadcast2 (log_prob (h !!! ac_net l)) obs action = Ok lps
    /\ h !! ov = None /\ h !! olp = None /\ ov <> olp
    /\ h1 = <[olp := lps]> (<[ov := value_head (h !!! ac_net l) <$> obs]> h).
Proof.
  unfold compute_old_data.
  destruct (broadcast2 _ obs action) as [lps|e]; simpl; [|discriminate].
  intros [= <- <- <-]. exists lps.
  set (v := fresh (dom h)).
  set (p := fresh (dom (<[v := value_head (h !!! ac_net l) <$> obs]> h))).
  assert (Hv : h !! v = None) by (apply not_elem_of_dom, is_fresh).
  assert (Hp : <[v := value_head (h !!! ac_net l) <$> obs]> h !! p = None)
    by (apply not_elem_of_dom, is_fresh).
  assert (Hpv : p <> v) by (intros E; rewrite E, lookup_insert_eq in Hp; discriminate).
  rewrite lookup_insert_ne in Hp by congruence.
  repeat split; try assumption; congruence.
Qed.


Lemma clamp_one (clip : R) : 0 <= clip -> clamp (1 - clip) (1 + clip) 1 = 1.
Proof.
  intros Hc. unfold clamp, Rmin, Rmax.
  destruct (Rle_dec 1 (1 - clip)); destruct (Rle_dec _ _); lra.
Qed.

Lemma surrogates_at_snapshot (theta : tensor) (clip : R) (obs : list Obs)
    (action : list Act) (returns old_values : list R) :
  0 <= clip ->
  length action = length obs ->
  surrogates theta clip obs action returns old_values
    (zip_with (log_prob theta) obs action)
  = take (length obs) (zip_with Rminus returns old_values).
Proof.
  intros Hc. revert action returns old_values.
  induction obs as [|o obs IH]; intros [|a action] [|g returns] [|v old_values] Hlen;
    try discriminate Hlen; try reflexivity.
  injection Hlen as Hlen. simpl. rewrite IH by assumption. f_equal.
  unfold clipped_surrogate.
  replace (log_prob theta o a - log_prob theta o a) with 0 by ring.
  rewrite exp_0, clamp_one by assumption.
  unfold Rmin. destruct (Rle_dec _ _); ring.
Qed.

(** X8. The first call of [learn] on the batch of the snapshot: the
    parameters have not moved, so (for [clip_ratio >= 0]) every ratio is
    [exp(0) = 1], no row is clipped, and the actor loss is minus the mean
    advantage, the critic loss the mean squared advantage. *)
Theorem first_learn_after_snapshot (l : learner) (obs : list Obs) (action : list Act)
    (reward : list R) (next_obs : list Obs) (done : list bool) (returns : list R)
    (h0 h1 : gmap loc tensor) (ov olp : loc) :
  owned l h0 ->
  0 <= clip_ratio l ->
  length action = length obs ->
  length returns = length obs ->
  compute_old_data l obs action h0 = Ok (ov, olp, h1) ->
  exists (e : R) (h' : gmap loc tensor),
    learn l obs action reward next_obs done returns ov olp h1
    = Ok (- mean (zip_with Rminus returns (value_head (h0 !!! ac_net l) <$> obs)),
          mean ((fun x => x ^ 2)
                  <$> zip_with Rminus returns (value_head (h0 !!! ac_net l) <$> obs)),
          e, h').
Proof.
  intros (Hn & _ & _) Hclip Ha Hr Hc.
  destruct (compute_old_data_inv _ _ _ _ _ _ _ Hc) as (lps & Hb & Hv & Hp & Hne & ->).
  rewrite broadcast2_same_length in Hb by congruence. injection Hb as <-.
  assert (Hnv : ac_net l <> ov) by (intros E; rewrite E, Hv in Hn; destruct Hn; discriminate).
  assert (Hnp : ac_net l <> olp) by (intros E; rewrite E, Hp in Hn; destruct Hn; discriminate).
  unfold learn.
  rewrite !(lookup_total_insert_ne _ _ (ac_net l)) by congruence.
  rewrite lookup_total_insert_eq, (lookup_total_insert_ne _ olp ov),
    lookup_total_insert_eq by congruence.
  rewrite losses_well_shaped
    by (rewrite ?length_fmap, ?length_zip_with; lia).
  rewrite surrogates_at_snapshot by assumption.
  rewrite take_ge by (rewrite length_zip_with, length_fmap; lia).
  cbn [bind]. eexists _, _. reflexivity.
Qed.

Lemma clipped_surrogate_bound (clip ratio advantage : R) :
  0 <= clip ->
  clipped_surrogate clip ratio advantage <= advantage + clip * Rabs advantage.
Proof.
  intros Hc. unfold clipped_surrogate.
  apply Rle_trans with (clamp (1 - clip) (1 + clip) ratio * advantage);
    [apply Rmin_r|].
  assert (Hhi : clamp (1 - clip) (1 + clip) ratio <= 1 + clip)
    by (unfold clamp; apply Rmin_r).
  assert (Hlo : 1 - clip <= clamp (1 - clip) (1 + clip) ratio).
  { unfold clamp. apply Rmin_glb; [apply Rmax_r|lra]. }
  unfold Rabs. destruct (Rcase_abs advantage); nra.
Qed.

Lemma surrogates_sum_bound (theta : tensor) (clip : R) (obs : list Obs)
    (action : list Act) (returns old_values old_log_probs : list R) :
  0 <= clip ->
  length action = length obs ->
  length returns = length obs ->
  length old_values = length obs ->
  length old_log_probs = length obs ->
  length (surrogates theta clip obs action returns old_values old_log_probs)
  = length obs
  /\ tensor_sum (surrogates theta clip obs action returns old_values old_log_probs)
     <= tensor_sum ((fun a => a + clip * Rabs a)
                      <$> zip_with Rminus returns old_values).
Proof.
  intros Hc. revert action returns old_values old_log_probs.
  induction obs as [|o obs IH];
    intros [|a action] [|g returns] [|v old_values] [|p old_log_probs] Ha Hr Hv Hp;
    try discriminate.
  - split; [reflexivity|simpl; lra].
  - injection Ha as Ha; injection Hr as Hr; injection Hv as Hv; injection Hp as Hp.
    destruct (IH action returns old_values old_log_probs Ha Hr Hv Hp) as [IHl IHs].
    cbn [surrogates zip_with]. rewrite fmap_cons.
    split; [cbn [length]; rewrite IHl; reflexivity|].
    unfold tensor_sum in *. cbn [foldr].
    apply Rplus_le_compat; [apply clipped_surrogate_bound, Hc|exact IHs].
Qed.

Lemma mean_le (xs ys : list R) :
  length xs = length ys -> tensor_sum xs <= tensor_sum ys -> mean xs <= mean ys.
Proof.
  intros Hlen Hs. unfold mean. rewrite Hlen.
  destruct ys as [|y ys].
  - destruct xs; [lra|discriminate].
  - assert (Hn : 0 < / INR (length (y :: ys))).
    { apply Rinv_0_lt_compat, lt_0_INR. simpl. lia. }
    unfold Rdiv. apply Rmult_le_compat_r; [lra|exact Hs].
Qed.

(** X9. Whatever the parameters have become, for [clip_ratio >= 0] the
    actor loss of a call is at least [- mean(A + clip_ratio * |A|)] over the
    advantages [A = return - old_value] of the batch: no ratio, however
    large, buys more than the clipped credit. *)
Theorem actor_loss_bounded_below (l : learner) (obs : list Obs)
    (action : list Act) (reward : list R) (next_obs : list Obs) (done : list bool)
    (returns : list R) (ov olp : loc) (h : gmap loc tensor) :
  0 <= clip_ratio l ->
  length action = length obs ->
  length returns = length obs ->
  length (h !!! ov) = length obs ->
  length (h !!! olp) = length obs ->
  exists (a c e : R) (h' : gmap loc tensor),
    learn l obs action reward next_obs done returns ov olp h = Ok (a, c, e, h')
    /\ - mean ((fun A => A + clip_ratio l * Rabs A)
                 <$> zip_with Rminus returns (h !!! ov))
       <= a.
Proof.
  intros Hc Ha Hr Hv Hp. unfold learn.
  rewrite losses_well_shaped by assumption. cbn [bind].
  eexists _, _, _, _. split; [reflexivity|].
  destruct (surrogates_sum_bound (h !!! ac_net l) (clip_ratio l) obs action returns
              (h !!! ov) (h !!! olp) Hc Ha Hr Hv Hp) as [Hl Hs].
  apply Ropp_le_contravar, mean_le; [|exact Hs].
  etransitivity; [exact Hl|].
  rewrite length_fmap, length_zip_with. lia.
Qed.

End Learner.
End PPO.

(** *** A one-parameter actor-critic

    The smallest network the learner can be run on: the critic is the
    constant [theta[0]], the policy is the uniform density on the unit
    interval (log-probability and entropy 0). The loss is then a quadratic in
    [theta[0]], of which the central difference is the derivative. The
    optimizer is plain gradient descent with step 0.1. *)

Module Toy.
Local Open Scope R_scope.

Definition value_head (theta : PPO.tensor) (_ : unit) : R := hd 0 theta.
Definition log_prob (theta : PPO.tensor) (_ _ : unit) : R := 0.
Definition entropy (theta : PPO.tensor) (_ : unit) : R := 0.

Definition gradient (f : PPO.tensor -> R) (theta : PPO.tensor) : PPO.tensor :=
  [(f [hd 0 theta + 1] - f [hd 0 theta - 1]) / 2].

Definition descent (state theta grad : PPO.tensor) : PPO.tensor * PPO.tensor :=
  (state, zip_with (fun p g => p - g / 10) theta grad).

Definition agent : PPO.learner :=
  {| PPO.ac_net := 1%positive;
     PPO.ac_net_grad := 2%positive;
     PPO.ac_net_optim := 3%positive;
     PPO.gamma := 0.99;
     PPO.lmbda := 0.01;
     PPO.alpha := 0.5;
     PPO.beta := 1;
     PPO.clip_ratio := 0.2 |}.

(** The learner's tensors: parameters, gradient buffers, optimizer state. *)
Definition store : gmap PPO.loc PPO.tensor :=
  <[3%positive := []]> (<[2%positive := [0]]> (<[1%positive := [0]]> ∅)).

(** The store after [compute_old_data] on a batch of one row. *)
Definition snapshot_store : gmap PPO.loc PPO.tensor :=
  <[5%positive := [0]]> (<[4%positive := [0]]> store).

Definition learn :=
  @PPO.learn unit unit value_head log_prob entropy gradient descent agent.

(** The store after one call of [learn] on the row with return [1], given
    the snapshot at locations 4 and 5. *)
Definition store_after_learn : gmap PPO.loc PPO.tensor :=
  PPO.optim_step descent agent
    (PPO.backward gradient agent
       (PPO.loss value_head log_prob entropy agent [()] [()] [1]
          (snapshot_store !!! 4%positive) (snapshot_store !!! 5%positive))
       (PPO.zero_grad agent snapshot_store)).

End Toy.

Lemma learn_actor_loss_is_clipped_surrogate_witness :
  (exists (critic_loss entropy_loss : R) (h' : gmap PPO.loc PPO.tensor),
     Toy.learn [()] [()] [1%R] [()] [true] [1%R] 4%positive 5%positive Toy.snapshot_store
     = Ok ((- PPO.mean
              (PPO.surrogates Toy.log_prob (Toy.snapshot_store !!! 1%positive)
                 (PPO.clip_ratio Toy.agent) [()] [()] [1%R]
                 (Toy.snapshot_store !!! 4%positive)
                 (Toy.snapshot_store !!! 5%positive)))%R,
           critic_loss, entropy_loss, h'))
  /\ PPO.clamp (1 - 0.2) (1 + 0.2) 1.5 = 1.2%R.
Proof.
  apply (PPO.learn_actor_loss_is_clipped_surrogate Toy.value_head Toy.log_prob
           Toy.entropy Toy.gradient Toy.descent Toy.agent
           [()] [()] [1%R] [()] [true] [1%R] 4%positive 5%positive Toy.snapshot_store);
    reflexivity.
Defined.

Lemma learn_single_backward_single_step_witness :
  exists (a c e : R) (h' : gmap PPO.loc PPO.tensor),
    Toy.learn [()] [()] [1%R] [()] [true] [1%R] 4%positive 5%positive Toy.snapshot_store
    = Ok (a, c, e, h')
    /\ c = PPO.mean ((fun x => x ^ 2)%R
                       <$> zip_with Rminus [1%R]
                             (Toy.value_head (Toy.snapshot_store !!! 1%positive) <$> [()]))
    /\ e = PPO.mean (Toy.entropy (Toy.snapshot_store !!! 1%positive) <$> [()])
    /\ PPO.loss Toy.value_head Toy.log_prob Toy.entropy Toy.agent [()] [()] [1%R]
         (Toy.snapshot_store !!! 4%positive) (Toy.snapshot_store !!! 5%positive)
         (Toy.snapshot_store !!! 1%positive)
       = (a + PPO.alpha Toy.agent * c - PPO.beta Toy.agent * e)%R
    /\ h' = PPO.optim_step Toy.descent Toy.agent
              (PPO.backward Toy.gradient Toy.agent
                 (PPO.loss Toy.value_head Toy.log_prob Toy.entropy Toy.agent [()] [()] [1%R]
                    (Toy.snapshot_store !!! 4%positive) (Toy.snapshot_store !!! 5%positive))
                 (PPO.zero_grad Toy.agent Toy.snapshot_store))
    /\ h' !! 2%positive
       = Some (zip_with Rplus (zeros_like (Toy.snapshot_store !!! 1%positive))
                 (Toy.gradient
                    (PPO.loss Toy.value_head Toy.log_prob Toy.entropy Toy.agent [()] [()]
                       [1%R] (Toy.snapshot_store !!! 4%positive)
                       (Toy.snapshot_store !!! 5%positive))
                    (Toy.snapshot_store !!! 1%positive)))
    /\ (h' !!! 3%positive, h' !!! 1%positive)
       = Toy.descent (Toy.snapshot_store !!! 3%positive)
           (Toy.snapshot_store !!! 1%positive) (h' !!! 2%positive).
Proof.
  apply (PPO.learn_single_backward_single_step Toy.value_head Toy.log_prob
           Toy.entropy Toy.gradient Toy.descent Toy.agent
           [()] [()] [1%R] [()] [true] [1%R] 4%positive 5%positive Toy.snapshot_store);
    [repeat split; discriminate|reflexivity..].
Defined.

Lemma snapshot_frozen_across_learn_calls_witness :
  exists old_log_probs : PPO.tensor,
    PPO.broadcast2 (Toy.log_prob (Toy.store !!! 1%positive)) [()] [()] = Ok old_log_probs
    /\ Toy.store_after_learn !! 4%positive
       = Some (Toy.value_head (Toy.store !!! 1%positive) <$> [()])
    /\ Toy.store_after_learn !! 5%positive = Some old_log_probs
    /\ forall (obs' : list unit) (action' : list unit),
         PPO.ratio Toy.log_prob (Toy.store_after_learn !!! 1%positive) obs' action'
           (Toy.store_after_learn !!! 5%positive)
         = PPO.ratio Toy.log_prob (Toy.store_after_learn !!! 1%positive) obs' action'
             old_log_probs.
Proof.
  apply (PPO.snapshot_frozen_across_learn_calls Toy.value_head Toy.log_prob
           Toy.entropy Toy.gradient Toy.descent Toy.agent [()] [()]
           Toy.store Toy.snapshot_store Toy.store_after_learn 4%positive 5%positive).
  - repeat split; eexists; reflexivity.
  - reflexivity.
  - eapply PPO.calls_more with (obs := [()]) (action := [()]) (reward := [1%R])
      (next_obs := [()]) (done := [true]) (returns := [1%R]);
      [apply PPO.calls_none|reflexivity].
Defined.

(** In the one-parameter network, from parameters [[0]] and a batch of one
    row with return [1], the gradient buffer holds [[-1]], the derivative of
    [0.5 * (1 - theta)^2] at [0], when [learn] returns: it is not zero. *)
Lemma learn_gradients_not_zeroed_counterexample :
  exists (out : R * R * R) (h' : gmap PPO.loc PPO.tensor),
    Toy.learn [()] [()] [1%R] [()] [true] [1%R] 4%positive 5%positive Toy.snapshot_store
    = Ok (out, h')
    /\ h' !! PPO.ac_net_grad Toy.agent = Some [(-1)%R].
Proof.
  assert (Hsep : PPO.separate Toy.agent) by (repeat split; discriminate).
  assert (Hl : exists out h',
             Toy.learn [()] [()] [1%R] [()] [true] [1%R] 4%positive 5%positive
               Toy.snapshot_store = Ok (out, h'))
    by (eexists _, _; reflexivity).
  destruct Hl as (out & h' & Hl). exists out, h'. split; [exact Hl|].
  unfold Toy.learn in Hl.
  assert (Hg : h' !! PPO.ac_net_grad Toy.agent = Some [(-1)%R]).
  { rewrite (PPO.learn_grad_after _ _ _ _ _ _ _ _ _ _ _ _ _ _ _ _ _ Hsep Hl).
    change (Toy.snapshot_store !!! PPO.ac_net Toy.agent) with [0%R].
    change (Toy.snapshot_store !!! 4%positive) with [0%R].
    change (Toy.snapshot_store !!! 5%positive) with [0%R].
    unfold Toy.gradient, PPO.loss.
    rewrite !PPO.losses_well_shaped by reflexivity.
    unfold PPO.mean. simpl. do 2 f_equal.
    unfold Toy.log_prob, Toy.entropy. lra. }
  exact Hg.
Qed.

(** ** The statistics of [train] in [experiments/ppo.py]

    The calls on the logger, the runner and the agent are recorded in order;
    the three metrics are told apart by the constructor. *)

Module Trainer.

(** Line 10: [//] on Python integers is the floor division of [Z]. *)
Definition n_epochs (num_total_steps rollout_steps num_processes : Z) : result Z :=
  if decide (rollout_steps = 0%Z) then Raise ZeroDivisionError
  else if decide (num_processes = 0%Z) then Raise ZeroDivisionError
  else Ok (num_total_steps / rollout_steps / num_processes)%Z.

Section Stats.
Local Open Scope R_scope.
Context {Obs Act : Type}.

Inductive event :=
| LogEpisodeLength (value : nat) (global_step : nat)
| LogEpisodeReward (value : R) (global_step : nat)
| LogAgentActions (value : list Act) (global_step : nat)
| RunnerReset (i : nat)
| AgentReset.

Record stats := {
  n_episodes : nat;
  n_timesteps : nat;
  episode_len : list nat;
  episode_reward : list R;
  episode_actions : list (list Act);
  epoch_rollout_steps : nat;
  calls : list event
}.

(** Lines 11-16. *)
Definition init (num_processes : nat) : stats :=
  {| n_episodes := 0; n_timesteps := 0;
     episode_len := replicate num_processes 0%nat;
     episode_reward := replicate num_processes 0;
     episode_actions := replicate num_processes [];
     epoch_rollout_steps := 0; calls := [] |}.

(** Lines 39-56: the body of the loop for actor [i]. *)
Definition stats_body (st : stats) (i : nat) (history : @GAE.history R Obs Act)
    (done : bool) : result stats :=
  let steps := length (GAE.h_reward history) in
  let epoch_rollout_steps := (epoch_rollout_steps st + steps)%nat in
  let* len_i := index (episode_len st) i in
  let len_i := (len_i + steps)%nat in
  let* reward_i := index (episode_reward st) i in
  let reward_i := reward_i + PPO.tensor_sum (GAE.h_reward history) in
  let* actions_i := index (episode_actions st) i in
  let actions_i := actions_i ++ GAE.h_action history in
  if done then
    let n_episodes := S (n_episodes st) in
    Ok {| n_episodes := n_episodes; n_timesteps := n_timesteps st;
          episode_len := <[i := 0%nat]> (episode_len st);
          episode_reward := <[i := 0]> (episode_reward st);
          episode_actions := <[i := []]> (episode_actions st);
          epoch_rollout_steps := epoch_rollout_steps;
          calls := calls st
                   ++ [LogEpisodeLength len_i n_episodes;
                       LogEpisodeReward reward_i n_episodes;
                       LogAgentActions actions_i n_episodes;
                       RunnerReset i; AgentReset] |}
  else
    Ok {| n_episodes := n_episodes st; n_timesteps := n_timesteps st;
          episode_len := <[i := len_i]> (episode_len st);
          episode_reward := <[i := reward_i]> (episode_reward st);
          episode_actions := <[i := actions_i]> (episode_actions st);
          epoch_rollout_steps := epoch_rollout_steps;
          calls := calls st |}.

(** Line 38: [enumerate] from [i]. *)
Fixpoint stats_loop (i : nat) (items : list (@GAE.history R Obs Act * bool))
    (st : stats) : result stats :=
  match items with
  | [] => Ok st
  | (history, done) :: rest =>
      let* st' := stats_body st i history done in stats_loop (S i) rest st'
  end.

(** Line 36. *)
Definition start_epoch (st : stats) : stats :=
  {| n_episodes := n_episodes st; n_timesteps := n_timesteps st;
     episode_len := episode_len st; episode_reward := episode_reward st;
     episode_actions := episode_actions st;
     epoch_rollout_steps := 0; calls := calls st |}.

(** Lines 36-58. *)
Definition collect_stats (st : stats) (history_list : list (@GAE.history R Obs Act))
    (done_list : list bool) : result stats :=
  let* st1 := stats_loop 0 (zip history_list done_list) (start_epoch st) in
  Ok {| n_episodes := n_episodes st1;
        n_timesteps := n_timesteps st1 + epoch_rollout_steps st1;
        episode_len := episode_len st1; episode_reward := episode_reward st1;
        episode_actions := episode_actions st1;
        epoch_rollout_steps := epoch_rollout_steps st1; calls := calls st1 |}.

(** The three accumulators have one entry per process. *)
Definition aligned (st : stats) : Prop :=
  length (episode_reward st) = length (episode_len st)
  /\ length (episode_actions st) = length (episode_len st).

(** The actors reset by the calls, in order. *)
Definition resets (evs : list event) : list nat :=
  omap (fun ev => match ev with RunnerReset i => Some i | _ => None end) evs.

(** The positions, counted from [i], of the items whose flag is set. *)
Fixpoint done_indices (i : nat) (items : list (@GAE.history R Obs Act * bool))
  : list nat :=
  match items with
  | [] => []
  | (_, done) :: rest =>
      if done then i :: done_indices (S i) rest else done_indices (S i) rest
  end.

Definition total_steps (items : list (@GAE.history R Obs Act * bool)) : nat :=
  sum_list ((fun item => length (GAE.h_reward (fst item))) <$> items).

(** *** One actor, then all *)

Lemma stats_body_spec (st : stats) (i : nat) (history : @GAE.history R Obs Act)
    (done : bool) :
  aligned st -> (i < length (episode_len st))%nat ->
  exists st1 : stats,
    stats_body st i history done = Ok st1
    /\ aligned st1
    /\ length (episode_len st1) = length (episode_len st)
    /\ n_episodes st1 = (n_episodes st + (if done then 1 else 0))%nat
    /\ n_timesteps st1 = n_timesteps st
    /\ epoch_rollout_steps st1
       = (epoch_rollout_steps st + length (GAE.h_reward history))%nat
    /\ resets (calls st1) = resets (calls st) ++ (if done then [i] else [])
    /\ (forall j : nat, j <> i ->
          episode_len st1 !! j = episode_len st !! j
          /\ episode_reward st1 !! j = episode_reward st !! j)
    /\ episode_len st1 !! i
       = (fun n => if done then 0 else n + length (GAE.h_reward history))%nat
           <$> episode_len st !! i
    /\ episode_reward st1 !! i
       = (fun x => if done then 0 else x + PPO.tensor_sum (GAE.h_reward history))
           <$> episode_reward st !! i.
Proof.
  intros [Hr Ha] Hi. unfold stats_body.
  destruct (lookup_lt_is_Some_2 (episode_len st) i Hi) as [n Hn].
  destruct (lookup_lt_is_Some_2 (episode_reward st) i ltac:(lia)) as [x Hx].
  destruct (lookup_lt_is_Some_2 (episode_actions st) i ltac:(lia)) as [acts Hacts].
  unfold index. rewrite Hn, Hx, Hacts. cbn [bind].
  destruct done; eexists; (split; [reflexivity|]); cbn [n_episodes n_timesteps
    episode_len episode_reward episode_actions epoch_rollout_steps calls];
    unfold aligned; cbn [episode_len episode_reward episode_actions];
    rewrite ?length_insert.
  - repeat split; try assumption; try lia.
    + unfold resets. rewrite omap_app. reflexivity.
    + rewrite list_lookup_insert_ne by congruence. reflexivity.
    + rewrite list_lookup_insert_ne by congruence. reflexivity.
    + rewrite list_lookup_insert_eq by lia. reflexivity.
    + rewrite list_lookup_insert_eq by lia. reflexivity.
  - repeat split; try assumption; try lia.
    + rewrite app_nil_r. reflexivity.
    + rewrite list_lookup_insert_ne by congruence. reflexivity.
    + rewrite list_lookup_insert_ne by congruence. reflexivity.
    + rewrite list_lookup_insert_eq by lia. reflexivity.
    + rewrite list_lookup_insert_eq by lia. reflexivity.
Qed.

Lemma stats_loop_spec (items : list (@GAE.history R Obs Act * bool)) :
  forall (i : nat) (st : stats),
    aligned st -> (i + length items <= length (episode_len st))%nat ->
    exists st' : stats,
      stats_loop i items st = Ok st'
      /\ aligned st'
      /\ length (episode_len st') = length (episode_len st)
      /\ n_episodes st' = (n_episodes st + length (done_indices i items))%nat
      /\ n_timesteps st' = n_timesteps st
      /\ epoch_rollout_steps st' = (epoch_rollout_steps st + total_steps items)%nat
      /\ resets (calls st') = resets (calls st) ++ done_indices i items
      /\ (forall j : nat, (j < i \/ i + length items <= j)%nat ->
            episode_len st' !! j = episode_len st !! j
            /\ episode_reward st' !! j = episode_reward st !! j)
      /\ (forall (k : nat) (history : @GAE.history R Obs Act) (done : bool),
            items !! k = Some (history, done) ->
            episode_len st' !! (i + k)%nat
            = (fun n => if done then 0 else n + length (GAE.h_reward history))%nat
                <$> episode_len st !! (i + k)%nat
            /\ episode_reward st' !! (i + k)%nat
               = (fun x => if done then 0
                           else x + PPO.tensor_sum (GAE.h_reward history))
                   <$> episode_reward st !! (i + k)%nat).
Proof.
  induction items as [|[history done] items IH]; intros i st Hal Hlen.
  - exists st. cbn [stats_loop done_indices length]. rewrite app_nil_r.
    split; [reflexivity|]. split; [exact Hal|]. split; [reflexivity|].
    split; [lia|]. split; [reflexivity|].
    split; [unfold total_steps; simpl; lia|]. split; [reflexivity|].
    split; [intros j _; split; reflexivity|].
    intros k h d Hk. discriminate Hk.
  - simpl in Hlen.
    destruct (stats_body_spec st i history done Hal ltac:(lia))
      as (st1 & Hb & Hal1 & Hl1 & Hn1 & Ht1 & He1 & Hr1 & Ho1 & Hi1 & Hx1).
    destruct (IH (S i) st1 Hal1 ltac:(lia))
      as (st' & Hs & Hal' & Hl' & Hn' & Ht' & He' & Hr' & Ho' & Hk').
    exists st'. cbn [stats_loop]. rewrite Hb. cbn [bind].
    split; [exact Hs|]. split; [exact Hal'|]. split; [congruence|].
    split. { rewrite Hn', Hn1. simpl. destruct done; simpl; lia. }
    split; [congruence|].
    split. { rewrite He', He1. unfold total_steps. rewrite fmap_cons. simpl. lia. }
    split. { rewrite Hr', Hr1, <- app_assoc. simpl. destruct done; reflexivity. }
    split.
    + intros j Hj. simpl in Hj.
      destruct (Ho' j ltac:(lia)) as [-> ->]. apply Ho1. lia.
    + intros [|k] h d Hk.
      * injection Hk as <- <-. rewrite Nat.add_0_r.
        destruct (Ho' i ltac:(lia)) as [-> ->]. split; assumption.
      * simpl in Hk. destruct (Hk' k h d Hk) as [Hkl Hkr].
        replace (i + S k)%nat with (S i + k)%nat by lia.
        rewrite Hkl, Hkr.
        destruct (Ho1 (S i + k)%nat ltac:(lia)) as [-> ->]. split; reflexivity.
Qed.

Lemma stats_loop_overflow (items : list (@GAE.history R Obs Act * bool)) :
  forall (i : nat) (st : stats),
    aligned st ->
    (i <= length (episode_len st) < i + length items)%nat ->
    stats_loop i items st = Raise IndexError.
Proof.
  induction items as [|[history done] items IH]; intros i st Hal Hlen;
    simpl in Hlen; [lia|].
  cbn [stats_loop].
  destruct (decide (i = length (episode_len st))) as [->|Hne].
  - unfold stats_body, index.
    rewrite (lookup_ge_None_2 (episode_len st)) by lia. reflexivity.
  - destruct (stats_body_spec st i history done Hal ltac:(lia))
      as (st1 & Hb & Hal1 & Hl1 & _).
    rewrite Hb. cbn [bind]. apply IH; [exact Hal1|lia].
Qed.

Lemma done_indices_lookup (items : list (@GAE.history R Obs Act * bool)) :
  forall i j : nat,
    j ∈ done_indices i items
    <-> exists (k : nat) (history : @GAE.history R Obs Act),
          j = (i + k)%nat /\ items !! k = Some (history, true).
Proof.
  induction items as [|[history done] items IH]; intros i j.
  - simpl. split; [intros H; inversion H|intros (k & h & _ & Hk); discriminate Hk].
  - cbn [done_indices]. split.
    + intros H. destruct done.
      * apply elem_of_cons in H as [->|H].
        { exists 0%nat, history. split; [lia|reflexivity]. }
        apply IH in H as (k & h & -> & Hk).
        exists (S k), h. split; [lia|exact Hk].
      * apply IH in H as (k & h & -> & Hk).
        exists (S k), h. split; [lia|exact Hk].
    + intros ([|k] & h & -> & Hk).
      * injection Hk as <- ->. rewrite Nat.add_0_r. apply elem_of_cons. left. reflexivity.
      * simpl in Hk.
        assert (Hin : (i + S k)%nat ∈ done_indices (S i) items).
        { apply IH. exists k, h. split; [lia|exact Hk]. }
        destruct done; [apply elem_of_cons; right|]; exact Hin.
Qed.

Lemma done_indices_length (items : list (@GAE.history R Obs Act * bool)) (i : nat) :
  length (done_indices i items)
  = length (filter (fun item => snd item = true) items).
Proof.
  revert i. induction items as [|[h d] items IH]; intros i; [reflexivity|].
  cbn [done_indices]. destruct d.
  - rewrite filter_cons_True by reflexivity. cbn [length]. rewrite IH. reflexivity.
  - rewrite filter_cons_False by (cbn; discriminate). apply IH.
Qed.

(** X10. When there are no more actors than processes, the statistics of an
    epoch come out: the episode counter grows by the number of actors whose
    [done] flag is set, and the epoch's and the total step counts by the
    lengths of all segments. *)
Theorem collect_stats_counts (st : stats)
    (history_list : list (@GAE.history R Obs Act)) (done_list : list bool) :
  aligned st ->
  (length (zip history_list done_list) <= length (episode_len st))%nat ->
  exists st' : stats,
    collect_stats st history_list done_list = Ok st'
    /\ n_episodes st'
       = (n_episodes st + length (filter (fun item => snd item = true)
                                    (zip history_list done_list)))%nat
    /\ epoch_rollout_steps st' = total_steps (zip history_list done_list)
    /\ n_timesteps st'
       = (n_timesteps st + total_steps (zip history_list done_list))%nat
    /\ length (episode_len st') = length (episode_len st).
Proof.
  intros Hal Hlen. unfold collect_stats.
  edestruct (stats_loop_spec (zip history_list done_list) 0 (start_epoch st))
    as (st1 & Hs & _ & Hl & Hn & Ht & He & _); [exact Hal|exact Hlen|].
  rewrite Hs. cbn [bind]. eexists. split; [reflexivity|].
  cbn [n_episodes n_timesteps epoch_rollout_steps episode_len] in *.
  rewrite Hn, Ht, He, Hl, done_indices_length. repeat split; lia.
Qed.

(** X11. In an epoch, [runner.reset(i)] is called for exactly the actors
    whose segment ended an episode, in the order of the actors. *)
Theorem collect_stats_resets (st : stats)
    (history_list : list (@GAE.history R Obs Act)) (done_list : list bool) :
  aligned st ->
  (length (zip history_list done_list) <= length (episode_len st))%nat ->
  exists st' : stats,
    collect_stats st history_list done_list = Ok st'
    /\ resets (calls st')
       = resets (calls st) ++ done_indices 0 (zip history_list done_list)
    /\ forall i : nat,
         i ∈ done_indices 0 (zip history_list done_list)
         <-> exists history : @GAE.history R Obs Act,
               history_list !! i = Some history /\ done_list !! i = Some true.
Proof.
  intros Hal Hlen. unfold collect_stats.
  edestruct (stats_loop_spec (zip history_list done_list) 0 (start_epoch st))
    as (st1 & Hs & _ & _ & _ & _ & _ & Hr & _); [exact Hal|exact Hlen|].
  rewrite Hs. cbn [bind]. eexists. split; [reflexivity|].
  split; [exact Hr|].
  intros i. rewrite done_indices_lookup. split.
  - intros (k & h & -> & Hk). exists h.
    apply lookup_zip_with_Some in Hk as (x & y & [= <- <-] & Hx & Hy).
    split; assumption.
  - intros (h & Hh & Hd). exists i, h. split; [reflexivity|].
    apply lookup_zip_with_Some. exists h, true. repeat split; assumption.
Qed.

(** X12. After an epoch the accumulators of an actor whose segment ended an
    episode are back at 0; those of any other actor have grown by the length
    and by the sum of the rewards of its segment. *)
Theorem collect_stats_accumulators (st : stats)
    (history_list : list (@GAE.history R Obs Act)) (done_list : list bool)
    (i : nat) (history : @GAE.history R Obs Act) (done : bool) :
  aligned st ->
  (length (zip history_list done_list) <= length (episode_len st))%nat ->
  history_list !! i = Some history ->
  done_list !! i = Some done ->
  exists st' : stats,
    collect_stats st history_list done_list = Ok st'
    /\ episode_len st' !! i
       = (fun n => if done then 0 else n + length (GAE.h_reward history))%nat
           <$> episode_len st !! i
    /\ episode_reward st' !! i
       = (fun x => if done then 0 else x + PPO.tensor_sum (GAE.h_reward history))
           <$> episode_reward st !! i.
Proof.
  intros Hal Hlen Hh Hd. unfold collect_stats.
  edestruct (stats_loop_spec (zip history_list done_list) 0 (start_epoch st))
    as (st1 & Hs & _ & _ & _ & _ & _ & _ & _ & Hk); [exact Hal|exact Hlen|].
  rewrite Hs. cbn [bind]. eexists. split; [reflexivity|].
  cbn [episode_len episode_reward] in *.
  apply (Hk i history done).
  apply lookup_zip_with_Some. exists history, done. repeat split; assumption.
Qed.

(** X13. With more actors than processes the statistics loop raises
    IndexError at the first actor beyond the accumulators. *)
Theorem collect_stats_overflow (st : stats)
    (history_list : list (@GAE.history R Obs Act)) (done_list : list bool) :
  aligned st ->
  (length (episode_len st) < length (zip history_list done_list))%nat ->
  collect_stats st history_list done_list = Raise IndexError.
Proof.
  intros Hal Hlen. unfold collect_stats.
  rewrite stats_loop_overflow; [reflexivity|exact Hal|].
  unfold start_epoch. cbn [episode_len]. lia.
Qed.

End Stats.

(** X14. For positive [rollout_steps] and [num_processes] the number of
    epochs is the largest [n] for which [n] epochs of [rollout_steps] steps
    of each of [num_processes] actors fit in [num_total_steps]. *)
Theorem n_epochs_fits_budget (num_total_steps rollout_steps num_processes : Z) :
  (0 < rollout_steps)%Z -> (0 < num_processes)%Z ->
  exists n : Z,
    n_epochs num_total_steps rollout_steps num_processes = Ok n
    /\ (n * (rollout_steps * num_processes) <= num_total_steps
        < (n + 1) * (rollout_steps * num_processes))%Z.
Proof.
  intros Hr Hp. unfold n_epochs.
  rewrite !decide_False by lia. eexists. split; [reflexivity|].
  rewrite Z.div_div by lia.
  pose proof (Z.mul_div_le num_total_steps (rollout_steps * num_processes)
                ltac:(lia)).
  pose proof (Z.mul_succ_div_gt num_total_steps (rollout_steps * num_processes)
                ltac:(lia)).
  lia.
Qed.

End Trainer.

(** ** [DeepQLearner]

    The learner is a record passed from call to call. The file builds its
    batch tensors with [torch.cat(map(...))], which is taken to concatenate
    the mapped rows. *)

Module DQN.

Record config := {
  gamma : R;
  eps_max : R;
  eps_min : R;
  temperature : R;
  memory_size : Z;
  batch_size : Z
}.

(** Lines 70-71: the value assigned to [_eps] when [_steps] is [steps]. *)
Definition eps_decay (c : config) (steps : nat) : R :=
  (eps_min c + (eps_max c - eps_min c) * exp (- INR steps * 1 / temperature c))%R.

(** [.max(1)[0]] on one row of action values. *)
Definition row_max (row : list R) : result R :=
  match row with
  | [] => Raise RuntimeError
  | x :: rest => Ok (foldl Rmax x rest)
  end.

(** [.gather(1, batch_action)] on one row. *)
Definition gather_row (row_action : list R * nat) : result R :=
  match fst row_action !! snd row_action with
  | Some q => Ok q
  | None => Raise RuntimeError
  end.

Section Learner.
Local Open Scope R_scope.
Context {State Rng : Type}.

Record Transition := {
  t_state : State;
  t_action : nat;
  t_reward : R;
  t_next_state : State;
  t_done : bool
}.

(** The Q-network at parameters [theta]: one value per action. *)
Variable q_net : list R -> State -> list R.
(** The regression loss of current against expected Q-values. *)
Variable criterion : list R -> list R -> R.
(** [loss.backward()] and [optimizer.step()], as for the PPO learner. *)
Variable gradient : (list R -> R) -> list R -> list R.
Variable optimizer : list R -> list R -> list R -> list R * list R.
(** [ReplayMemory.sample]: the class is outside the learner's file; the
    draw is a function of the generator's state, of which nothing is
    assumed. *)
Variable sample : Rng -> list Transition -> Z -> list Transition * Rng.

Record learner := {
  hp : config;
  q_params : list R;
  q_grad : list R;
  optim_state : list R;
  _memory : list Transition;
  _steps : nat;
  _eps : R;
  rng : Rng
}.

(** Lines 10-33. *)
Definition init (c : config) (theta state : list R) (seed : Rng) : learner :=
  {| hp := c; q_params := theta; q_grad := zeros_like theta; optim_state := state;
     _memory := []; _steps := 0; _eps := eps_max c; rng := seed |}.

Definition set_rng (s : learner) (r : Rng) : learner :=
  {| hp := hp s; q_params := q_params s; q_grad := q_grad s;
     optim_state := optim_state s; _memory := _memory s; _steps := _steps s;
     _eps := _eps s; rng := r |}.

(** Modelled from the spec: [ReplayMemory.push] is not in the learner's
    file. A fixed-capacity buffer in insertion order: the new transition is
    appended and, once the capacity is exceeded, the oldest is dropped. *)
Definition push (capacity : Z) (mem : list Transition) (t : Transition)
  : list Transition :=
  let mem' := mem ++ [t] in
  if (capacity <? Z.of_nat (length mem'))%Z then drop 1 mem' else mem'.

(** Lines 43-44. *)
Definition transition (s : learner) (t : Transition) : learner :=
  {| hp := hp s; q_params := q_params s; q_grad := q_grad s;
     optim_state := optim_state s;
     _memory := push (memory_size (hp s)) (_memory s) t;
     _steps := _steps s; _eps := _eps s; rng := rng s |}.

(** Line 59. *)
Definition current_q_values (theta : list R) (batch_state : list State)
    (batch_action : list nat) : result (list R) :=
  map_rows gather_row (zip (q_net theta <$> batch_state) batch_action).

(** Lines 60-61. *)
Definition expected_q_values (theta : list R) (gamma : R) (batch_reward : list R)
    (batch_next_state : list State) : result (list R) :=
  let* max_next_q_values := map_rows row_max (q_net theta <$> batch_next_state) in
  Ok (zip_with (fun r m => r + gamma * m) batch_reward max_next_q_values).

(** Lines 59-63 on the columns of the batch: the loss, and the loss as a
    function of the parameters with the target held fixed. *)
Definition loss_on_columns (s : learner) (batch_state : list State)
    (batch_action : list nat) (batch_reward : list R) (batch_next_state : list State)
  : result (R * (list R -> R)) :=
  let* current := current_q_values (q_params s) batch_state batch_action in
  let* expected :=
    expected_q_values (q_params s) (gamma (hp s)) batch_reward batch_next_state in
  Ok (criterion current expected,
      fun theta => match current_q_values theta batch_state batch_action with
                   | Ok current' => criterion current' expected
                   | Raise _ => 0
                   end).

(** Lines 65-71 for the loss function [f]. *)
Definition update (s : learner) (f : list R -> R) : result learner :=
  let grad := zip_with Rplus (q_grad s) (gradient f (q_params s)) in
  let '(state, theta) := optimizer (optim_state s) (q_params s) grad in
  let grad := zeros_like grad in
  let steps := S (_steps s) in
  if Req_dec_T (temperature (hp s)) 0 then Raise ZeroDivisionError
  else Ok {| hp := hp s; q_params := theta; q_grad := grad; optim_state := state;
             _memory := _memory s; _steps := steps;
             _eps := eps_decay (hp s) steps; rng := rng s |}.

(** Lines 51-71. Unpacking the zipped batch into five names fails on an
    empty batch; [batch_done] is bound and not used. *)
Definition learn_on_batch (s : learner) (batch : list Transition) : result learner :=
  match batch with
  | [] => Raise ValueError
  | _ :: _ =>
      let batch_state := t_state <$> batch in
      let batch_action := t_action <$> batch in
      let batch_reward := t_reward <$> batch in
      let batch_next_state := t_next_state <$> batch in
      let batch_done := t_done <$> batch in
      let* (_, f) :=
        loss_on_columns s batch_state batch_action batch_reward batch_next_state in
      update s f
  end.


(** Lines 46-71. *)
Definition learn (s : learner) : result learner :=
  if (Z.of_nat (length (_memory s)) <? batch_size (hp s))%Z then Ok s
  else
    let '(batch, r) := sample (rng s) (_memory s) (batch_size (hp s)) in
    learn_on_batch (set_rng s r) batch.


(** [reaches s0 n s]: [s] is the learner [s0] after some calls of its
    methods, [n] of which were calls of [learn] on a buffer holding at least
    [batch_size] transitions. [act] only draws from the generator. *)
Inductive reaches (s0 : learner) : nat -> learner -> Prop :=
| reaches_init : reaches s0 0 s0
| reaches_act n s r : reaches s0 n s -> reaches s0 n (set_rng s r)
| reaches_transition n s t : reaches s0 n s -> reaches s0 n (transition s t)
| reaches_learn_short n s s' :
    reaches s0 n s ->
    (Z.of_nat (length (_memory s)) < batch_size (hp s))%Z ->
    learn s = Ok s' ->
    reaches s0 n s'
| reaches_learn n s s' :
    reaches s0 n s ->
    (batch_size (hp s) <= Z.of_nat (length (_memory s)))%Z ->
    learn s = Ok s' ->
    reaches s0 (S n) s'.

(** *** What [learn] writes *)



Lemma learn_short (s : learner) :
  (Z.of_nat (length (_memory s)) < batch_size (hp s))%Z -> learn s = Ok s.
Proof.
  intros Hlt. unfold learn.
  destruct (Z.ltb_spec (Z.of_nat (length (_memory s))) (batch_size (hp s)));
    [reflexivity|lia].
Qed.





(** *** The schedule *)





(** C7. While the replay memory holds fewer than [batch_size] transitions,
    [learn] returns normally and the learner is exactly as before: the same
    parameters, gradient buffers and optimizer state (no step was taken), the
    same step counter and the same exploration probability. *)
Theorem learn_noop_below_batch_size (s : learner) :
  (Z.of_nat (length (_memory s)) < batch_size (hp s))%Z ->
  learn s = Ok s.
Proof. apply learn_short. Qed.


(** *** The batch without its [done] flags *)




(** *** Further properties of [learn] *)





(** X17. With [temperature = 0] no call of [learn] on a buffer of at least
    [batch_size] transitions returns: the decay of the exploration
    probability divides by the temperature. *)
Theorem learn_raises_at_zero_temperature (s : learner) :
  temperature (hp s) = 0 ->
  (batch_size (hp s) <= Z.of_nat (length (_memory s)))%Z ->
  exists e : pyerr, learn s = Raise e.
Proof.
  intros HT Hge. unfold learn.
  destruct (Z.ltb_spec (Z.of_nat (length (_memory s))) (batch_size (hp s)));
    [lia|].
  destruct (sample _ _ _) as [batch r]. unfold learn_on_batch.
  destruct batch as [|t batch]; [eexists; reflexivity|].
  destruct (loss_on_columns _ _ _ _ _) as [[v f]|e]; cbn [bind];
    [|eexists; reflexivity].
  unfold update. destruct (optimizer _ _ _) as [state theta].
  cbn [hp set_rng]. destruct (Req_dec_T _ _); [|contradiction].
  eexists. reflexivity.
Qed.


End Learner.
End DQN.

(** *** A one-action Q-network

    The value of the only action is the parameter [theta[0]]; the loss is
    the mean squared error; the memory hands out its oldest transitions. *)

Module ToyQ.
Local Open Scope R_scope.

Definition q_net (theta : list R) (_ : unit) : list R := [hd 0 theta].

Definition criterion (current expected : list R) : R :=
  PPO.mean ((fun x => x ^ 2) <$> zip_with Rminus current expected).

Definition sample (r : unit) (mem : list (@DQN.Transition unit)) (n : Z)
  : list (@DQN.Transition unit) * unit :=
  (take (Z.to_nat n) mem, r).

(** The default hyper-parameters of the constructor. *)
Definition defaults : DQN.config :=
  {| DQN.gamma := 0.99; DQN.eps_max := 1; DQN.eps_min := 0.01;
     DQN.temperature := 3500; DQN.memory_size := 5000; DQN.batch_size := 32 |}.

(** Batches of one transition, with a temperature to choose. *)
Definition config_with (T : R) : DQN.config :=
  {| DQN.gamma := 0.99; DQN.eps_max := 1; DQN.eps_min := 0.01;
     DQN.temperature := T; DQN.memory_size := 5000; DQN.batch_size := 1 |}.

Definition terminal_step : @DQN.Transition unit :=
  {| DQN.t_state := (); DQN.t_action := 0; DQN.t_reward := 1;
     DQN.t_next_state := (); DQN.t_done := true |}.


Definition new (c : DQN.config) : @DQN.learner unit unit := DQN.init c [0] [] ().

Definition learn :=
  @DQN.learn unit unit q_net criterion Toy.gradient Toy.descent sample.

Definition learn_on_batch :=
  @DQN.learn_on_batch unit unit q_net criterion Toy.gradient Toy.descent.

Definition reaches :=
  @DQN.reaches unit unit q_net criterion Toy.gradient Toy.descent sample.

End ToyQ.


Lemma learn_noop_below_batch_size_witness :
  ToyQ.learn (ToyQ.new ToyQ.defaults) = Ok (ToyQ.new ToyQ.defaults).
Proof.
  apply (DQN.learn_noop_below_batch_size ToyQ.q_net ToyQ.criterion Toy.gradient
           Toy.descent ToyQ.sample (ToyQ.new ToyQ.defaults)).
  reflexivity.
Defined.




(** *** Instances of the further properties *)


Lemma first_learn_after_snapshot_witness :
  exists (e : R) (h' : gmap PPO.loc PPO.tensor),
    Toy.learn [()] [()] [1%R] [()] [true] [1%R] 4%positive 5%positive Toy.snapshot_store
    = Ok ((- PPO.mean (zip_with Rminus [1%R]
                         (Toy.value_head (Toy.store !!! 1%positive) <$> [()])))%R,
          PPO.mean ((fun x => x ^ 2)%R
                      <$> zip_with Rminus [1%R]
                            (Toy.value_head (Toy.store !!! 1%positive) <$> [()])),
          e, h').
Proof.
  apply (PPO.first_learn_after_snapshot Toy.value_head Toy.log_prob Toy.entropy
           Toy.gradient Toy.descent Toy.agent [()] [()] [1%R] [()] [true] [1%R]
           Toy.store Toy.snapshot_store 4%positive 5%positive).
  - repeat split; eexists; reflexivity.
  - simpl. lra.
  - reflexivity.
  - reflexivity.
  - reflexivity.
Defined.

Lemma actor_loss_bounded_below_witness :
  exists (a c e : R) (h' : gmap PPO.loc PPO.tensor),
    Toy.learn [()] [()] [1%R] [()] [true] [1%R] 4%positive 5%positive Toy.snapshot_store
    = Ok (a, c, e, h')
    /\ (- PPO.mean ((fun A => A + PPO.clip_ratio Toy.agent * Rabs A)
                      <$> zip_with Rminus [1%R] (Toy.snapshot_store !!! 4%positive))
        <= a)%R.
Proof.
  apply (PPO.actor_loss_bounded_below Toy.value_head Toy.log_prob Toy.entropy
           Toy.gradient Toy.descent Toy.agent [()] [()] [1%R] [()] [true] [1%R]
           4%positive 5%positive Toy.snapshot_store).
  - simpl. lra.
  - reflexivity.
  - reflexivity.
  - reflexivity.
  - reflexivity.
Defined.

(** Two actors; the segment of the first one ended an episode. *)
Module ToyRun.

Definition first : @GAE.history R unit unit :=
  {| GAE.h_obs := [(); ()]; GAE.h_action := [(); ()]; GAE.h_reward := [1%R; 1%R];
     GAE.h_next_obs := [(); ()]; GAE.h_done := [false; true] |}.

Definition second : @GAE.history R unit unit :=
  {| GAE.h_obs := [(); ()]; GAE.h_action := [(); ()]; GAE.h_reward := [1%R; 2%R];
     GAE.h_next_obs := [(); ()]; GAE.h_done := [false; false] |}.

Definition start : @Trainer.stats unit := Trainer.init 2.

End ToyRun.

Lemma collect_stats_counts_witness :
  exists st' : @Trainer.stats unit,
    Trainer.collect_stats ToyRun.start [ToyRun.first; ToyRun.second] [true; false]
    = Ok st'
    /\ Trainer.n_episodes st' = 1
    /\ Trainer.epoch_rollout_steps st' = 4
    /\ Trainer.n_timesteps st' = 4
    /\ length (Trainer.episode_len st') = 2.
Proof.
  apply (Trainer.collect_stats_counts ToyRun.start [ToyRun.first; ToyRun.second]
           [true; false]).
  - split; reflexivity.
  - simpl. lia.
Defined.

Lemma collect_stats_resets_witness :
  exists st' : @Trainer.stats unit,
    Trainer.collect_stats ToyRun.start [ToyRun.first; ToyRun.second] [true; false]
    = Ok st'
    /\ Trainer.resets (Trainer.calls st') = [0]
    /\ forall i : nat,
         i ∈ [0]
         <-> exists history : @GAE.history R unit unit,
               [ToyRun.first; ToyRun.second] !! i = Some history
               /\ [true; false] !! i = Some true.
Proof.
  apply (Trainer.collect_stats_resets ToyRun.start [ToyRun.first; ToyRun.second]
           [true; false]).
  - split; reflexivity.
  - simpl. lia.
Defined.

Lemma collect_stats_accumulators_witness :
  exists st' : @Trainer.stats unit,
    Trainer.collect_stats ToyRun.start [ToyRun.first; ToyRun.second] [true; false]
    = Ok st'
    /\ Trainer.episode_len st' !! 1 = Some 2
    /\ Trainer.episode_reward st' !! 1 = Some (0 + (1 + (2 + 0)))%R.
Proof.
  apply (Trainer.collect_stats_accumulators ToyRun.start
           [ToyRun.first; ToyRun.second] [true; false] 1 ToyRun.second false).
  - split; reflexivity.
  - simpl. lia.
  - reflexivity.
  - reflexivity.
Defined.

Lemma collect_stats_overflow_witness :
  Trainer.collect_stats (@Trainer.init unit 1) [ToyRun.first; ToyRun.second]
    [true; false]
  = Raise IndexError.
Proof.
  apply (Trainer.collect_stats_overflow (@Trainer.init unit 1)
           [ToyRun.first; ToyRun.second] [true; false]).
  - split; reflexivity.
  - simpl. lia.
Defined.

Lemma n_epochs_fits_budget_witness :
  exists n : Z,
    Trainer.n_epochs 1000000 5 16 = Ok n
    /\ (n * (5 * 16) <= 1000000 < (n + 1) * (5 * 16))%Z.
Proof. apply (Trainer.n_epochs_fits_budget 1000000 5 16); lia. Defined.



Lemma learn_raises_at_zero_temperature_witness :
  exists e : pyerr,
    ToyQ.learn (DQN.transition (ToyQ.new (ToyQ.config_with 0)) ToyQ.terminal_step)
    = Raise e.
Proof.
  apply (DQN.learn_raises_at_zero_temperature ToyQ.q_net ToyQ.criterion
           Toy.gradient Toy.descent ToyQ.sample
           (DQN.transition (ToyQ.new (ToyQ.config_with 0)) ToyQ.terminal_step)).
  - reflexivity.
  - simpl. lia.
Defined.

